(** * gz_the_works: a one-shot gzip encoder driver

    A shallow embedding of [src/gz_the_works.c].  The program is a straight
    line of calls into zlib and libc with two early exits.  zlib and libc are
    not part of the repository, so the program is modelled as a tree of
    external calls ([prog]) and run against an arbitrary implementation of
    the zlib interface ([zlib]); the log of calls a run leaves behind is
    produced by the runner, not by the program. *)

From Stdlib Require Import ZArith List String Ascii Bool Lia.
Import ListNotations.
Open Scope Z_scope.

(** ** C data *)

(** An [unsigned char] is a [Z] in [0, 256). *)
Definition byte := Z.

Definition bytes_of_string (s : string) : list byte :=
  map (fun c => Z.of_nat (nat_of_ascii c)) (list_ascii_of_string s).

(** The storage of a C string literal: its characters and the closing NUL. *)
Definition literal (chars : list byte) : list byte := chars ++ [0].

(** [strlen]: the number of bytes before the first NUL. *)
Fixpoint strlen (p : list byte) : Z :=
  match p with
  | [] => 0
  | b :: q => if b =? 0 then 0 else 1 + strlen q
  end.

(** Conversions to the unsigned types of the source (LP64: [uInt] has 32
    bits, [uLong] and [size_t] have 64). *)
Definition to_uInt (z : Z) : Z := z mod 2 ^ 32.
Definition to_uLong (z : Z) : Z := z mod 2 ^ 64.
Definition to_size_t (z : Z) : Z := z mod 2 ^ 64.

(** Constants of zlib.h (the header is not in the repository; these are the
    values of zlib's public interface). *)
Definition Z_OK : Z := 0.
Definition Z_STREAM_END : Z := 1.
Definition Z_STREAM_ERROR : Z := -2.
Definition Z_MEM_ERROR : Z := -4.
Definition Z_BUF_ERROR : Z := -5.
Definition Z_FINISH : Z := 4.

(** [z_stream]: the fields a caller of zlib reads and writes.  A pointer is
    modelled by what it gives access to: [next_in] is the bytes from the
    pointer to the end of its object ([None] is [Z_NULL]), [next_out] is an
    offset into the output array.  The private members ([state], [zalloc],
    [zfree], [opaque], [msg]) live in the library's own state. *)
Record z_stream : Type := mk_z_stream {
  next_in : option (list byte);
  avail_in : Z;
  total_in : Z;
  next_out : option Z;
  avail_out : Z;
  total_out : Z;
  data_type : Z;
  adler : Z
}.

(** [z_stream strm = {0}] *)
Definition z_stream_zero : z_stream :=
  {| next_in := None; avail_in := 0; total_in := 0;
     next_out := None; avail_out := 0; total_out := 0;
     data_type := 0; adler := 0 |}.

(** [gz_header], field for field as zlib.h declares it. *)
Record gz_header : Type := mk_gz_header {
  text : Z;
  time : Z;
  xflags : Z;
  os : Z;
  extra : option (list byte);
  extra_len : Z;
  extra_max : Z;
  name : option (list byte);
  name_max : Z;
  comment : option (list byte);
  comm_max : Z;
  hcrc : Z;
  done : Z
}.

(** ** External calls *)

(** The six functions [main] calls, each indexed by what the caller gets
    back.  A function that takes [&strm] returns the structure as it leaves
    it; [deflate] also returns the output array it wrote into.
    [deflateSetHeader] takes [&head]; the record is passed as it is at the
    call, since the source does not touch it again before [deflate] reads
    it. *)
Inductive call : Type -> Type :=
| deflateInit2 (strm : z_stream)
    (level method windowBits memLevel strategy : Z) : call (Z * z_stream)
| deflateSetHeader (strm : z_stream) (head : gz_header) : call (Z * z_stream)
| deflate (strm : z_stream) (out : list byte) (flush : Z)
    : call (Z * z_stream * list byte)
| deflateEnd (strm : z_stream) : call (Z * z_stream)
| time_NULL : call Z
| fwrite (ptr : list byte) (size nmemb : Z) : call Z.

(** A program: return, or make a call and go on with its result. *)
Inductive prog (R : Type) : Type :=
| Return (r : R)
| Call {X : Type} (c : call X) (k : X -> prog R).

Arguments Return {R} r.
Arguments Call {R X} c k.

Declare Scope prog_scope.
Delimit Scope prog_scope with prog.
Notation "x <- c ;; k" := (Call c (fun x => k))
  (at level 61, c at next level, right associativity) : prog_scope.
Notation "' pat <- c ;; k" := (Call c (fun x => match x with pat => k end))
  (at level 61, pat pattern, c at next level, right associativity) : prog_scope.

(** ** The program *)

(** [TEXT], the two lines of the macro without the closing NUL. *)
Definition nl : string := String "010"%char EmptyString.
Definition TEXT_chars : list byte :=
  bytes_of_string
    ("This is a test of the emergency broadcast system." ++ nl ++
     "Remember, this is only a test." ++ nl).
Definition TEXT : list byte := literal TEXT_chars.

(** ["x1\004\0abcd"]: the octal escapes are the bytes 4 and 0. *)
Definition extra_literal : list byte :=
  literal (bytes_of_string "x1" ++ [4; 0] ++ bytes_of_string "abcd").
Definition name_literal : list byte := literal (bytes_of_string "foo.bar").
Definition comment_literal : list byte :=
  literal (bytes_of_string "no comment").

(** [sizeof(out)] *)
Definition sizeof_out : Z := 256.

(** What the stack holds where [head] and [out] are declared: neither is
    initialised by the source. *)
Record stack : Type := mk_stack {
  head_garbage : gz_header;
  out_garbage : nat -> byte
}.

(** [unsigned char out[256]] before anything is written to it. *)
Definition out_array (stk : stack) : list byte :=
  map (out_garbage stk) (seq 0 (Z.to_nat sizeof_out)).

(** The header as the eight assignments of lines 20-27 leave it; the five
    members the source never assigns keep what the stack held. *)
Definition fill_head (h0 : gz_header) (t : Z) : gz_header :=
  {| text := 1;
     time := to_uLong t;
     xflags := xflags h0;
     os := 3;
     extra := Some extra_literal;
     extra_len := 8;
     extra_max := extra_max h0;
     name := Some name_literal;
     name_max := name_max h0;
     comment := Some comment_literal;
     comm_max := comm_max h0;
     hcrc := 1;
     done := done h0 |}.

(** Assignments to the four members of [strm] the source writes. *)
Definition set_avail_in (v : Z) (s : z_stream) : z_stream :=
  mk_z_stream (next_in s) v (total_in s) (next_out s) (avail_out s)
    (total_out s) (data_type s) (adler s).
Definition set_next_in (v : option (list byte)) (s : z_stream) : z_stream :=
  mk_z_stream v (avail_in s) (total_in s) (next_out s) (avail_out s)
    (total_out s) (data_type s) (adler s).
Definition set_avail_out (v : Z) (s : z_stream) : z_stream :=
  mk_z_stream (next_in s) (avail_in s) (total_in s) (next_out s) v
    (total_out s) (data_type s) (adler s).
Definition set_next_out (v : option Z) (s : z_stream) : z_stream :=
  mk_z_stream (next_in s) (avail_in s) (total_in s) v (avail_out s)
    (total_out s) (data_type s) (adler s).

Open Scope prog_scope.

(** [int main(void)] *)
Definition main (stk : stack) : prog Z :=
  let strm := z_stream_zero in
  '(ret, strm) <- deflateInit2 strm (-1) 8 (15 + 16) 8 0 ;;
  if negb (ret =? Z_OK) then Return 1 else
  t <- time_NULL ;;
  let head := fill_head (head_garbage stk) t in
  '(_, strm) <- deflateSetHeader strm head ;;
  let strm := set_avail_in (to_uInt (strlen TEXT)) strm in
  let strm := set_next_in (Some TEXT) strm in
  let out := out_array stk in
  let strm := set_avail_out (to_uInt sizeof_out) strm in
  let strm := set_next_out (Some 0) strm in
  '(ret, strm, out) <- deflate strm out Z_FINISH ;;
  if negb (ret =? Z_STREAM_END) then Return 1 else
  '(_, strm) <- deflateEnd strm ;;
  _ <- fwrite out 1 (to_size_t (sizeof_out - avail_out strm)) ;;
  Return 0.

Close Scope prog_scope.

(** ** Running a program *)

(** An implementation of the zlib interface: a private state and the four
    functions as state transformers. *)
Record zlib : Type := mk_zlib {
  zstate : Type;
  impl_deflateInit2 :
    z_stream -> Z -> Z -> Z -> Z -> Z -> zstate -> Z * z_stream * zstate;
  impl_deflateSetHeader :
    z_stream -> gz_header -> zstate -> Z * z_stream * zstate;
  impl_deflate :
    z_stream -> list byte -> Z -> zstate -> Z * z_stream * list byte * zstate;
  impl_deflateEnd : z_stream -> zstate -> Z * z_stream * zstate
}.

(** One completed call: the call and what it returned. *)
Inductive event : Type :=
| Ev {X : Type} (c : call X) (x : X).

(** The world a run acts on: the library's state, the clock [time] reads,
    the bytes written to standard output and the calls made so far, oldest
    first. *)
Record world (L : zlib) : Type := mk_world {
  heap : zstate L;
  clock : Z;
  stdout : list byte;
  trace : list event
}.

Arguments mk_world {L} _ _ _ _.
Arguments heap {L} _.
Arguments clock {L} _.
Arguments stdout {L} _.
Arguments trace {L} _.

Definition with_heap {L} (h : zstate L) (w : world L) : world L :=
  mk_world h (clock w) (stdout w) (trace w).

(** What a call does to the world.  [time(NULL)] reads the clock; [fwrite]
    to [stdout] appends [size * nmemb] bytes read from [ptr] and returns
    [nmemb] (a failing write is not modelled). *)
Definition perform {L : zlib} {X : Type} (c : call X) (w : world L)
  : X * world L :=
  match c in call X return X * world L with
  | deflateInit2 strm level method windowBits memLevel strategy =>
      let '(r, s, h) :=
        impl_deflateInit2 L strm level method windowBits memLevel strategy
          (heap w) in
      ((r, s), with_heap h w)
  | deflateSetHeader strm head =>
      let '(r, s, h) := impl_deflateSetHeader L strm head (heap w) in
      ((r, s), with_heap h w)
  | deflate strm out flush =>
      let '(r, s, o, h) := impl_deflate L strm out flush (heap w) in
      ((r, s, o), with_heap h w)
  | deflateEnd strm =>
      let '(r, s, h) := impl_deflateEnd L strm (heap w) in
      ((r, s), with_heap h w)
  | time_NULL => (clock w, w)
  | fwrite ptr size nmemb =>
      (nmemb,
       mk_world (heap w) (clock w)
         (stdout w ++ firstn (Z.to_nat (size * nmemb)) ptr) (trace w))
  end.

Definition record {L} (e : event) (w : world L) : world L :=
  mk_world (heap w) (clock w) (stdout w) (trace w ++ [e]).

Fixpoint run {L : zlib} {R : Type} (p : prog R) (w : world L) : R * world L :=
  match p with
  | Return r => (r, w)
  | Call c k =>
      let (x, w') := perform c w in
      run (k x) (record (Ev c x) w')
  end.

(** A process starts with nothing written and nothing called. *)
Definition boot {L : zlib} (h : zstate L) (now : Z) : world L :=
  mk_world h now [] [].

(** One execution of the program: the exit status and the final world. *)
Definition exec (L : zlib) (stk : stack) (h : zstate L) (now : Z)
  : Z * world L :=
  run (main stk) (boot h now).

Definition exit_status {L} (r : Z * world L) : Z := fst r.
Definition output {L} (r : Z * world L) : list byte := stdout (snd r).
Definition history {L} (r : Z * world L) : list event := trace (snd r).

(** ** Reading a history *)

Inductive fn : Type :=
| fn_deflateInit2 | fn_deflateSetHeader | fn_deflate | fn_deflateEnd
| fn_time | fn_fwrite.

Definition fn_eqb (a b : fn) : bool :=
  match a, b with
  | fn_deflateInit2, fn_deflateInit2 | fn_deflateSetHeader, fn_deflateSetHeader
  | fn_deflate, fn_deflate | fn_deflateEnd, fn_deflateEnd
  | fn_time, fn_time | fn_fwrite, fn_fwrite => true
  | _, _ => false
  end.

Definition fn_of_call {X} (c : call X) : fn :=
  match c with
  | deflateInit2 _ _ _ _ _ _ => fn_deflateInit2
  | deflateSetHeader _ _ => fn_deflateSetHeader
  | deflate _ _ _ => fn_deflate
  | deflateEnd _ => fn_deflateEnd
  | time_NULL => fn_time
  | fwrite _ _ _ => fn_fwrite
  end.

Definition fn_of (e : event) : fn := match e with Ev c _ => fn_of_call c end.

(** The functions called, in order. *)
Definition calls (tr : list event) : list fn := map fn_of tr.

Definition times_called (f : fn) (tr : list event) : nat :=
  List.length (filter (fn_eqb f) (calls tr)).

(** The status a call returned: the [int] of the zlib functions, the
    [time_t] of [time], the count of [fwrite]. *)
Definition returned (e : event) : Z :=
  match e with
  | Ev c x =>
      match c in call X return X -> Z with
      | deflateInit2 _ _ _ _ _ _ => fun x => fst x
      | deflateSetHeader _ _ => fun x => fst x
      | deflate _ _ _ => fun x => fst (fst x)
      | deflateEnd _ => fun x => fst x
      | time_NULL => fun x => x
      | fwrite _ _ _ => fun x => x
      end x
  end.

(** What the calls to [f] returned, in order. *)
Definition returns (f : fn) (tr : list event) : list Z :=
  map returned (filter (fun e => fn_eqb f (fn_of e)) tr).

(** The stream and the output array as each [deflate] call left them. *)
Definition deflated (tr : list event) : list (z_stream * list byte) :=
  flat_map
    (fun e =>
       match e with
       | Ev c x =>
           match c in call X return X -> list (z_stream * list byte) with
           | deflate _ _ _ => fun x => [(snd (fst x), snd x)]
           | _ => fun _ => []
           end x
       end) tr.

(** The arguments of each [fwrite] call. *)
Definition fwrites (tr : list event) : list (list byte * Z * Z) :=
  flat_map
    (fun e =>
       match e with
       | Ev c _ =>
           match c with
           | fwrite ptr size nmemb => [(ptr, size, nmemb)]
           | _ => []
           end
       end) tr.

(** The contents of [out] after a history: as the last [deflate] left it,
    or as the stack had it. *)
Definition out_after (stk : stack) (tr : list event) : list byte :=
  last (map snd (deflated tr)) (out_array stk).

(** ** The gzip member format (RFC 1952)

    What zlib emits for a stream opened with [windowBits = 15 + 16] and a
    header attached with [deflateSetHeader], and what a gzip decoder reads.
    zlib is not part of the repository: the encoding below is the format of
    RFC 1952 filled in from a [gz_header] the way the zlib manual documents
    it ([xflags], [extra_max], [name_max], [comm_max] and [done] are not
    used when writing). *)

Definition le16 (z : Z) : list byte :=
  [Z.land z 255; Z.land (Z.shiftr z 8) 255].

Definition le32 (z : Z) : list byte :=
  [Z.land z 255; Z.land (Z.shiftr z 8) 255;
   Z.land (Z.shiftr z 16) 255; Z.land (Z.shiftr z 24) 255].

Definition of_le (bs : list byte) : Z :=
  fold_right (fun b acc => b + 256 * acc) 0 bs.

(** CRC-32 (ISO 3309, reflected polynomial 0xEDB88320), bit by bit. *)
Definition crc32_shift (c : Z) : Z :=
  if Z.testbit c 0 then Z.lxor (Z.shiftr c 1) 0xEDB88320 else Z.shiftr c 1.

Definition crc32_byte (c : Z) (b : byte) : Z :=
  Nat.iter 8 crc32_shift (Z.lxor c (Z.land b 255)).

Definition crc32_update (crc : Z) (buf : list byte) : Z :=
  Z.lxor (fold_left crc32_byte buf (Z.lxor crc 0xFFFFFFFF)) 0xFFFFFFFF.

Definition crc32 (buf : list byte) : Z := crc32_update 0 buf.

(** The bytes of a C string: up to and including the first NUL. *)
Fixpoint c_string (p : list byte) : list byte :=
  match p with
  | [] => []
  | b :: q => if b =? 0 then [0] else b :: c_string q
  end.

Definition is_set (z : Z) : bool := negb (z =? 0).

(** FLG: FTEXT 1, FHCRC 2, FEXTRA 4, FNAME 8, FCOMMENT 16. *)
Definition flg (h : gz_header) : Z :=
  (if is_set (text h) then 1 else 0) +
  (if is_set (hcrc h) then 2 else 0) +
  (match extra h with Some _ => 4 | None => 0 end) +
  (match name h with Some _ => 8 | None => 0 end) +
  (match comment h with Some _ => 16 | None => 0 end).

(** The ten bytes every header starts with: ID1, ID2, CM, FLG, MTIME, XFL
    and OS. *)
Definition fixed_fields (h : gz_header) (xfl : Z) : list byte :=
  [31; 139; 8; flg h] ++ le32 (time h) ++ [xfl; Z.land (os h) 255].

(** XLEN and the extra field, when there is one. *)
Definition extra_field (h : gz_header) : list byte :=
  match extra h with
  | Some e => le16 (extra_len h) ++ firstn (Z.to_nat (extra_len h)) e
  | None => []
  end.

(** A zero-terminated string, when there is one. *)
Definition string_field (p : option (list byte)) : list byte :=
  match p with
  | Some s => c_string s
  | None => []
  end.

(** Everything of the header that the header CRC covers. *)
Definition header_body (h : gz_header) (xfl : Z) : list byte :=
  fixed_fields h xfl ++ extra_field h ++
  string_field (name h) ++ string_field (comment h).

Definition crc16 (bs : list byte) : list byte := le16 (crc32 bs).

Definition header_bytes (h : gz_header) (xfl : Z) : list byte :=
  header_body h xfl ++
  (if is_set (hcrc h) then crc16 (header_body h xfl) else []).

(** CRC32 and ISIZE of the uncompressed data. *)
Definition trailer_bytes (data : list byte) : list byte :=
  le32 (crc32 data) ++ le32 (Z.of_nat (List.length data)).

Definition gzip_member (h : gz_header) (xfl : Z) (body data : list byte)
  : list byte :=
  header_bytes h xfl ++ body ++ trailer_bytes data.

(** *** Reading a header *)

(** What a decoder extracts from a member's header. *)
Record gz_info : Type := mk_gz_info {
  info_text : bool;
  info_mtime : Z;
  info_xfl : Z;
  info_os : Z;
  info_extra : option (list byte);
  info_name : option (list byte);
  info_comment : option (list byte);
  info_hcrc : option Z
}.

(** The characters of a C string: the bytes before the first NUL. *)
Fixpoint c_chars (p : list byte) : list byte :=
  match p with
  | [] => []
  | b :: q => if b =? 0 then [] else b :: c_chars q
  end.

(** What the header written for [h] says. *)
Definition info_of (h : gz_header) (xfl : Z) : gz_info :=
  {| info_text := is_set (text h);
     info_mtime := time h mod 2 ^ 32;
     info_xfl := xfl;
     info_os := Z.land (os h) 255;
     info_extra := option_map (firstn (Z.to_nat (extra_len h))) (extra h);
     info_name := option_map c_chars (name h);
     info_comment := option_map c_chars (comment h);
     info_hcrc :=
       if is_set (hcrc h)
       then Some (Z.land (crc32 (header_body h xfl)) 65535)
       else None |}.

Definition take (n : nat) (bs : list byte) : option (list byte * list byte) :=
  if (n <=? List.length bs)%nat then Some (firstn n bs, skipn n bs) else None.

(** A zero-terminated field: the bytes before the NUL and what follows it. *)
Fixpoint take_string (bs : list byte) : option (list byte * list byte) :=
  match bs with
  | [] => None
  | b :: q =>
      if b =? 0 then Some ([], q)
      else match take_string q with
           | Some (s, r) => Some (b :: s, r)
           | None => None
           end
  end.

Definition optional {A} (present : bool)
    (read : list byte -> option (A * list byte)) (bs : list byte)
  : option (option A * list byte) :=
  if present then
    match read bs with
    | Some (a, r) => Some (Some a, r)
    | None => None
    end
  else Some (None, bs).

Definition read_extra (bs : list byte) : option (list byte * list byte) :=
  match take 2 bs with
  | Some (xlen, r) => take (Z.to_nat (of_le xlen)) r
  | None => None
  end.

Definition read_hcrc (bs : list byte) : option (Z * list byte) :=
  match take 2 bs with
  | Some (c, r) => Some (of_le c, r)
  | None => None
  end.

(** The header of a member: the magic and method, the flags (the reserved
    bits must be clear), then each optional field the flags announce; a
    header CRC that is present must match the bytes before it. *)
Definition read_header (bs : list byte) : option (gz_info * list byte) :=
  match bs with
  | id1 :: id2 :: cm :: f :: m0 :: m1 :: m2 :: m3 :: xfl :: o :: r0 =>
      if negb ((id1 =? 31) && (id2 =? 139) && (cm =? 8) &&
               (0 <=? f) && (f <? 32)) then None else
      match optional (Z.testbit f 2) read_extra r0 with
      | None => None
      | Some (ex, r1) =>
      match optional (Z.testbit f 3) take_string r1 with
      | None => None
      | Some (nm, r2) =>
      match optional (Z.testbit f 4) take_string r2 with
      | None => None
      | Some (cmt, r3) =>
      match optional (Z.testbit f 1) read_hcrc r3 with
      | None => None
      | Some (hc, r4) =>
          let covered := firstn (List.length bs - List.length r3) bs in
          let good :=
            match hc with
            | Some c => c =? Z.land (crc32 covered) 65535
            | None => true
            end in
          if good then
            Some ({| info_text := Z.testbit f 0;
                     info_mtime := of_le [m0; m1; m2; m3];
                     info_xfl := xfl;
                     info_os := o;
                     info_extra := ex;
                     info_name := nm;
                     info_comment := cmt;
                     info_hcrc := hc |}, r4)
          else None
      end end end end
  | _ => None
  end.

(** ** A DEFLATE decoder (RFC 1951)

    The reference reading of a compressed body: stored, fixed-Huffman and
    dynamic-Huffman blocks, decoded one bit at a time from canonical codes. *)

Module Inflate.

(** The input: the bytes not yet finished and the number of bits (0 to 7)
    already taken from the first of them, least significant first. *)
Record stream : Type := mk_stream { bytes : list byte; used : nat }.

Definition read_bit (s : stream) : option (bool * stream) :=
  match bytes s with
  | [] => None
  | b :: q =>
      let v := Z.testbit b (Z.of_nat (used s)) in
      if (used s =? 7)%nat then Some (v, mk_stream q 0)
      else Some (v, mk_stream (b :: q) (S (used s)))
  end.

Fixpoint read_bits (n : nat) (s : stream) : option (Z * stream) :=
  match n with
  | O => Some (0, s)
  | S m =>
      match read_bit s with
      | None => None
      | Some (b, s1) =>
          match read_bits m s1 with
          | None => None
          | Some (v, s2) => Some (Z.b2z b + 2 * v, s2)
          end
      end
  end.

(** Drop what is left of a byte that has been started. *)
Definition align (s : stream) : list byte :=
  match used s with
  | O => bytes s
  | S _ => tl (bytes s)
  end.

(** A canonical Huffman code: how many codes there are of each length from
    1 to 15, and the symbols ordered by code. *)
Record huffman : Type := mk_huffman { counts : list Z; symbols : list Z }.

Definition lengths_1_15 : list Z := map Z.of_nat (seq 1 15).

Definition symbols_of_length (lens : list Z) (len : Z) : list Z :=
  map fst
    (filter (fun p => snd p =? len)
       (combine (map Z.of_nat (seq 0 (List.length lens))) lens)).

Definition construct (lens : list Z) : huffman :=
  {| counts :=
       map (fun len => Z.of_nat (List.length (symbols_of_length lens len)))
         lengths_1_15;
     symbols := flat_map (symbols_of_length lens) lengths_1_15 |}.

(** The code space left unused: 0 for a complete code, negative for an
    over-subscribed one. *)
Definition unused (h : huffman) : Z :=
  fold_left (fun left count => 2 * left - count) (counts h) 1.

Definition coded (h : huffman) : Z := fold_left Z.add (counts h) 0.

Fixpoint decode_from (cs : list Z) (syms : list Z) (code first index : Z)
    (s : stream) : option (Z * stream) :=
  match cs with
  | [] => None
  | count :: cs' =>
      match read_bit s with
      | None => None
      | Some (b, s1) =>
          let code := code + Z.b2z b in
          if code - count <? first then
            match nth_error syms (Z.to_nat (index + (code - first))) with
            | Some sym => Some (sym, s1)
            | None => None
            end
          else
            decode_from cs' syms (2 * code) (2 * (first + count))
              (index + count) s1
      end
  end.

Definition decode (h : huffman) (s : stream) : option (Z * stream) :=
  decode_from (counts h) (symbols h) 0 0 0 s.

Definition length_base : list Z :=
  [3; 4; 5; 6; 7; 8; 9; 10; 11; 13; 15; 17; 19; 23; 27; 31; 35; 43; 51; 59;
   67; 83; 99; 115; 131; 163; 195; 227; 258].
Definition length_extra : list nat :=
  [0; 0; 0; 0; 0; 0; 0; 0; 1; 1; 1; 1; 2; 2; 2; 2; 3; 3; 3; 3; 4; 4; 4; 4;
   5; 5; 5; 5; 0]%nat.
Definition dist_base : list Z :=
  [1; 2; 3; 4; 5; 7; 9; 13; 17; 25; 33; 49; 65; 97; 129; 193; 257; 385; 513;
   769; 1025; 1537; 2049; 3073; 4097; 6145; 8193; 12289; 16385; 24577].
Definition dist_extra : list nat :=
  [0; 0; 0; 0; 1; 1; 2; 2; 3; 3; 4; 4; 5; 5; 6; 6; 7; 7; 8; 8; 9; 9; 10; 10;
   11; 11; 12; 12; 13; 13]%nat.

(** A base value plus its extra bits. *)
Definition read_value (base : list Z) (extra : list nat) (sym : Z)
    (s : stream) : option (Z * stream) :=
  if sym <? 0 then None else
  match nth_error base (Z.to_nat sym), nth_error extra (Z.to_nat sym) with
  | Some b, Some n =>
      match read_bits n s with
      | Some (e, s1) => Some (b + e, s1)
      | None => None
      end
  | _, _ => None
  end.

(** The output is kept newest byte first: the byte at distance [d] is at
    index [d - 1]. *)
Fixpoint copy (n : nat) (dist : nat) (out : list byte) : list byte :=
  match n with
  | O => out
  | S m => copy m dist (nth (dist - 1) out 0 :: out)
  end.

Fixpoint codes (fuel : nat) (lencode distcode : huffman) (s : stream)
    (out : list byte) : option (list byte * stream) :=
  match fuel with
  | O => None
  | S fuel' =>
      match decode lencode s with
      | None => None
      | Some (sym, s1) =>
          if sym <? 256 then codes fuel' lencode distcode s1 (sym :: out)
          else if sym =? 256 then Some (out, s1)
          else
            match read_value length_base length_extra (sym - 257) s1 with
            | None => None
            | Some (len, s2) =>
                match decode distcode s2 with
                | None => None
                | Some (dsym, s3) =>
                    match read_value dist_base dist_extra dsym s3 with
                    | None => None
                    | Some (dist, s4) =>
                        if Z.of_nat (List.length out) <? dist then None
                        else
                          codes fuel' lencode distcode s4
                            (copy (Z.to_nat len) (Z.to_nat dist) out)
                    end
                end
            end
      end
  end.

Definition fixed_lencode : huffman :=
  construct
    (repeat 8 144 ++ repeat 9 112 ++ repeat 7 24 ++ repeat 8 8).
Definition fixed_distcode : huffman := construct (repeat 5 30).

(** The order in which a dynamic block gives the lengths of the code-length
    code. *)
Definition order : list Z :=
  [16; 17; 18; 0; 8; 7; 9; 6; 10; 5; 11; 4; 12; 3; 13; 2; 14; 1; 15].

Fixpoint read_many (n : nat) (width : nat) (s : stream)
  : option (list Z * stream) :=
  match n with
  | O => Some ([], s)
  | S m =>
      match read_bits width s with
      | None => None
      | Some (v, s1) =>
          match read_many m width s1 with
          | None => None
          | Some (vs, s2) => Some (v :: vs, s2)
          end
      end
  end.

Definition lookup (key : Z) (table : list (Z * Z)) : Z :=
  match find (fun p => fst p =? key) table with
  | Some p => snd p
  | None => 0
  end.

(** The literal/length and distance code lengths of a dynamic block, newest
    first in [acc]; [todo] lengths remain to be read. *)
Fixpoint read_lengths (fuel : nat) (lencode : huffman) (todo : Z)
    (acc : list Z) (s : stream) : option (list Z * stream) :=
  if todo <=? 0 then Some (rev acc, s) else
  match fuel with
  | O => None
  | S fuel' =>
      match decode lencode s with
      | None => None
      | Some (sym, s1) =>
          if sym <? 16 then
            read_lengths fuel' lencode (todo - 1) (sym :: acc) s1
          else
            let again (len : Z) (base : Z) (width : nat) :=
              match read_bits width s1 with
              | None => None
              | Some (e, s2) =>
                  let n := base + e in
                  if todo <? n then None
                  else
                    read_lengths fuel' lencode (todo - n)
                      (repeat len (Z.to_nat n) ++ acc) s2
              end in
            if sym =? 16 then
              match acc with
              | [] => None
              | last :: _ => again last 3 2%nat
              end
            else if sym =? 17 then again 0 3 3%nat
            else again 0 11 7%nat
      end
  end.

(** A code read from a block may be incomplete only when none of its
    codes is longer than one bit (a single code, or no code at all for the
    distances of a block of literals). *)
Definition usable (h : huffman) : bool :=
  (unused h =? 0) ||
  ((0 <? unused h) && (coded h =? nth 0 (counts h) 0)).

Definition dynamic (fuel : nat) (s : stream) (out : list byte)
  : option (list byte * stream) :=
  match read_bits 5 s with
  | None => None
  | Some (hlit, s1) =>
  match read_bits 5 s1 with
  | None => None
  | Some (hdist, s2) =>
  match read_bits 4 s2 with
  | None => None
  | Some (hclen, s3) =>
      let nlen := hlit + 257 in
      let ndist := hdist + 1 in
      let ncode := hclen + 4 in
      if (286 <? nlen) || (30 <? ndist) then None else
      match read_many (Z.to_nat ncode) 3 s3 with
      | None => None
      | Some (cl, s4) =>
          let table := combine order cl in
          let clcode :=
            construct (map (fun i => lookup (Z.of_nat i) table) (seq 0 19)) in
          if negb (unused clcode =? 0) then None else
          match read_lengths (Z.to_nat (nlen + ndist)) clcode (nlen + ndist)
                  [] s4 with
          | None => None
          | Some (lens, s5) =>
              let litlens := firstn (Z.to_nat nlen) lens in
              let distlens := skipn (Z.to_nat nlen) lens in
              if nth 256 litlens 0 =? 0 then None else
              let lencode := construct litlens in
              let distcode := construct distlens in
              if usable lencode && usable distcode
              then codes fuel lencode distcode s5 out
              else None
          end
      end
  end end end.

Definition stored (s : stream) (out : list byte)
  : option (list byte * stream) :=
  match align s with
  | l0 :: l1 :: n0 :: n1 :: r =>
      let len := of_le [l0; l1] in
      if negb (len + of_le [n0; n1] =? 65535) then None else
      match take (Z.to_nat len) r with
      | Some (data, r') => Some (rev data ++ out, mk_stream r' 0)
      | None => None
      end
  | _ => None
  end.

Fixpoint blocks (fuel inner : nat) (s : stream) (out : list byte)
  : option (list byte * stream) :=
  match fuel with
  | O => None
  | S fuel' =>
      match read_bit s with
      | None => None
      | Some (last, s1) =>
          match read_bits 2 s1 with
          | None => None
          | Some (type, s2) =>
              let block :=
                if type =? 0 then stored s2 out
                else if type =? 1 then
                  codes inner fixed_lencode fixed_distcode s2 out
                else if type =? 2 then dynamic inner s2 out
                else None in
              match block with
              | None => None
              | Some (out', s3) =>
                  if last then Some (out', s3)
                  else blocks fuel' inner s3 out'
              end
          end
      end
  end.

(** Every block takes at least three bits and every symbol at least one, so
    the number of input bits bounds both loops. *)
Definition enough (input : list byte) : nat := S (8 * List.length input).

(** The data of a DEFLATE stream at the front of [input], and the bytes
    that follow the stream. *)
Definition inflate (input : list byte) : option (list byte * list byte) :=
  match blocks (enough input) (enough input) (mk_stream input 0) [] with
  | Some (out, s) => Some (rev out, align s)
  | None => None
  end.

End Inflate.

(** A single-member gzip file: header, body, and a trailer whose CRC32 and
    ISIZE match the data; nothing may follow. *)
Definition gunzip (file : list byte) : option (gz_info * list byte) :=
  match read_header file with
  | None => None
  | Some (info, r) =>
      match Inflate.inflate r with
      | None => None
      | Some (data, r') =>
          match r' with
          | [c0; c1; c2; c3; n0; n1; n2; n3] =>
              if (of_le [c0; c1; c2; c3] =? crc32 data) &&
                 (of_le [n0; n1; n2; n3]
                    =? Z.of_nat (List.length data) mod 2 ^ 32)
              then Some (info, data)
              else None
          | _ => None
          end
      end
  end.

(** ** What the program relies on from zlib *)

(** The compressor inside an implementation: the XFL byte it declares and
    the DEFLATE body it produces, both fixed by the parameters given to
    [deflateInit2] (and, for the body, the data). *)
Record deflater : Type := mk_deflater {
  xfl_of : Z -> Z -> Z;
  body_of : Z -> Z -> Z -> list byte -> list byte
}.

(** The body is a DEFLATE stream for the data, and ends where it ends. *)
Definition sound (D : deflater) : Prop :=
  forall level memLevel strategy data rest,
    Inflate.inflate (body_of D level memLevel strategy data ++ rest)
    = Some (data, rest).

(** A header whose pointers are good for what is read through them. *)
Definition readable (h : gz_header) : Prop :=
  (forall e, extra h = Some e ->
     0 <= extra_len h < 65536 /\
     (Z.to_nat (extra_len h) <= List.length e)%nat) /\
  (forall s, name h = Some s -> In 0 s) /\
  (forall s, comment h = Some s -> In 0 s).

(** Two values of a [z_stream] that differ at most in the four members a
    caller assigns. *)
Definition same_private (a b : z_stream) : Prop :=
  total_in a = total_in b /\ total_out a = total_out b /\
  data_type a = data_type b /\ adler a = adler b.

(** The bytes a [deflate] call produced: from where [next_out] stood, as
    many as [avail_out] went down. *)
Definition produced (before after : z_stream) (out : list byte) : list byte :=
  match next_out before with
  | Some off =>
      firstn (Z.to_nat (avail_out before - avail_out after))
        (skipn (Z.to_nat off) out)
  | None => []
  end.

(** The zlib manual's contract, as far as [main] depends on it: first how
    the library treats the caller's buffers.  [deflate] never moves
    [avail_out] up nor below zero and leaves the output array its size;
    [deflateEnd] leaves [avail_out] alone. *)
Record keeps_buffers (L : zlib) : Prop := mk_keeps_buffers {
  deflate_avail_out :
    forall s out flush h r s' out' h',
      impl_deflate L s out flush h = (r, s', out', h') ->
      0 <= avail_out s ->
      0 <= avail_out s' <= avail_out s /\ List.length out' = List.length out;
  deflateEnd_avail_out :
    forall s h r s' h',
      impl_deflateEnd L s h = (r, s', h') -> avail_out s' = avail_out s
}.

(** Then what it writes.  On a stream opened for gzip ([method] 8,
    [windowBits] 15 + 16), a [deflate] with [Z_FINISH] that follows
    [deflateSetHeader] and reports [Z_STREAM_END] has produced one gzip
    member: the attached header, the compressor's body for the [avail_in]
    bytes at [next_in], and their trailer. *)
Record writes_gzip (L : zlib) (D : deflater) : Prop := mk_writes_gzip {
  finish_member :
    forall s0 h0 level memLevel strategy s1 h1 head r2 s2 h2
           s input out s3 out' h3,
      impl_deflateInit2 L s0 level 8 (15 + 16) memLevel strategy h0
      = (Z_OK, s1, h1) ->
      impl_deflateSetHeader L s1 head h1 = (r2, s2, h2) ->
      readable head ->
      same_private s s2 ->
      next_in s = Some input ->
      0 <= avail_in s <= Z.of_nat (List.length input) ->
      next_out s = Some 0 ->
      avail_out s = Z.of_nat (List.length out) ->
      impl_deflate L s out Z_FINISH h2 = (Z_STREAM_END, s3, out', h3) ->
      let data := firstn (Z.to_nat (avail_in s)) input in
      produced s s3 out'
      = gzip_member head (xfl_of D level strategy)
          (body_of D level memLevel strategy data) data
}.

(** Both together. *)
Definition conforms (L : zlib) (D : deflater) : Prop :=
  keeps_buffers L /\ writes_gzip L D.

(** ** A reference implementation

    A small gzip-only implementation of the interface, built on the format
    above and on stored (uncompressed) DEFLATE blocks.  It shows that the
    contract can be met and gives runs to evaluate. *)

(** Stored blocks of at most [chunk] bytes each; the last one carries
    BFINAL. *)
Fixpoint stored_blocks (fuel : nat) (chunk : Z) (data : list byte)
  : list byte :=
  match fuel with
  | O => []
  | S fuel' =>
      let n := Z.of_nat (List.length data) in
      if n <=? chunk then [1] ++ le16 n ++ le16 (65535 - n) ++ data
      else
        [0] ++ le16 chunk ++ le16 (65535 - chunk) ++
        firstn (Z.to_nat chunk) data ++
        stored_blocks fuel' chunk (skipn (Z.to_nat chunk) data)
  end.

Definition clamp (lo hi z : Z) : Z := Z.max lo (Z.min hi z).

(** XFL as zlib sets it: 2 for level 9, 4 for the fastest settings. *)
Definition zlib_xfl (level strategy : Z) : Z :=
  let level := if level =? -1 then 6 else level in
  if level =? 9 then 2
  else if (2 <=? strategy) || (level <? 2) then 4
  else 0.

(** The compressor that stores, [chunk] bytes to a block (clamped to what a
    stored block can hold). *)
Definition storing (chunk : Z) : deflater :=
  {| xfl_of := zlib_xfl;
     body_of := fun _ _ _ data =>
       stored_blocks (S (List.length data)) (clamp 1 65535 chunk) data |}.

Inductive phase : Type :=
| Closed
| Open
| Draining (pending : list byte)
| Ended.

Record ref_state : Type := mk_ref_state {
  memory : bool;
  status : phase;
  params : Z * Z * Z;
  gzhead : option gz_header
}.

(** A process that has not called zlib yet; [memory] says whether the
    allocation in [deflateInit2] will succeed. *)
Definition fresh (memory : bool) : ref_state :=
  mk_ref_state memory Closed (0, 0, 0) None.

Definition ref_deflateInit2 (strm : z_stream)
    (level method windowBits memLevel strategy : Z) (st : ref_state)
  : Z * z_stream * ref_state :=
  let lv := if level =? -1 then 6 else level in
  let wbits := windowBits - 16 in
  if negb ((1 <=? memLevel) && (memLevel <=? 9) && (method =? 8) &&
           (9 <=? wbits) && (wbits <=? 15) && (0 <=? lv) && (lv <=? 9) &&
           (0 <=? strategy) && (strategy <=? 4))
  then (Z_STREAM_ERROR, strm, st)
  else if negb (memory st) then (Z_MEM_ERROR, strm, st)
  else
    (Z_OK,
     mk_z_stream (next_in strm) (avail_in strm) 0 (next_out strm)
       (avail_out strm) 0 2 0,
     mk_ref_state (memory st) Open (level, memLevel, strategy) None).

Definition ref_deflateSetHeader (strm : z_stream) (head : gz_header)
    (st : ref_state) : Z * z_stream * ref_state :=
  match status st with
  | Open =>
      (Z_OK, strm, mk_ref_state (memory st) Open (params st) (Some head))
  | _ => (Z_STREAM_ERROR, strm, st)
  end.

(** The header zlib writes when none was attached. *)
Definition default_header (xfl : Z) : list byte :=
  [31; 139; 8; 0; 0; 0; 0; 0; xfl; 3].

(** Put [bs] into [out] at [off], as far as [room] and the array allow;
    returns the array, and what was written and what was not. *)
Definition emit (bs : list byte) (off room : Z) (out : list byte)
  : list byte * list byte * list byte :=
  let space := Z.min room (Z.of_nat (List.length out) - off) in
  let n := Z.to_nat (Z.min space (Z.of_nat (List.length bs))) in
  (firstn (Z.to_nat off) out ++ firstn n bs ++ skipn (Z.to_nat off + n) out,
   firstn n bs, skipn n bs).

Definition ref_deflate (D : deflater) (strm : z_stream) (out : list byte)
    (flush : Z) (st : ref_state) : Z * z_stream * list byte * ref_state :=
  let fail := (Z_STREAM_ERROR, strm, out, st) in
  match next_out strm with
  | None => fail
  | Some off =>
  if negb ((flush =? Z_FINISH) && (0 <=? off) &&
           (off <=? Z.of_nat (List.length out))) then fail else
  let pending :=
    match status st with
    | Open =>
        let input := match next_in strm with Some i => i | None => [] end in
        if (0 <=? avail_in strm) &&
           (avail_in strm <=? Z.of_nat (List.length input)) then
          let data := firstn (Z.to_nat (avail_in strm)) input in
          let '(level, memLevel, strategy) := params st in
          let xfl := xfl_of D level strategy in
          Some ((match gzhead st with
                 | Some h => header_bytes h xfl
                 | None => default_header xfl
                 end) ++ body_of D level memLevel strategy data ++
                trailer_bytes data,
                Z.of_nat (List.length data), crc32 data)
        else None
    | Draining bs => Some (bs, 0, adler strm)
    | _ => None
    end in
  match pending with
  | None => fail
  | Some (bs, taken, sum) =>
      if avail_out strm <=? 0 then (Z_BUF_ERROR, strm, out, st) else
      let '(out', written, unsent) := emit bs off (avail_out strm) out in
      let n := Z.of_nat (List.length written) in
      let strm' :=
        mk_z_stream
          (option_map (skipn (Z.to_nat taken)) (next_in strm))
          (avail_in strm - taken) (total_in strm + taken)
          (Some (off + n)) (avail_out strm - n) (total_out strm + n)
          (data_type strm) sum in
      match unsent with
      | [] =>
          (Z_STREAM_END, strm', out',
           mk_ref_state (memory st) Ended (params st) (gzhead st))
      | _ :: _ =>
          (Z_OK, strm', out',
           mk_ref_state (memory st) (Draining unsent) (params st) (gzhead st))
      end
  end
  end.

Definition ref_deflateEnd (strm : z_stream) (st : ref_state)
  : Z * z_stream * ref_state :=
  match status st with
  | Closed => (Z_STREAM_ERROR, strm, st)
  | Ended =>
      (Z_OK, strm, mk_ref_state (memory st) Closed (params st) None)
  | _ => (-3, strm, mk_ref_state (memory st) Closed (params st) None)
  end.

Definition reference (D : deflater) : zlib :=
  {| zstate := ref_state;
     impl_deflateInit2 := ref_deflateInit2;
     impl_deflateSetHeader := ref_deflateSetHeader;
     impl_deflate := ref_deflate D;
     impl_deflateEnd := ref_deflateEnd |}.

(** The reference with full-size stored blocks, and a wasteful one that
    spends a block on every byte. *)
Definition plain : zlib := reference (storing 65535).
Definition wasteful : zlib := reference (storing 1).

(** A stack of zeros. *)
Definition zero_header : gz_header :=
  mk_gz_header 0 0 0 0 None 0 0 None 0 None 0 0 0.
Definition zero_stack : stack := mk_stack zero_header (fun _ => 0).

(** ** The three ways through [main]

    [path L stk h now r] lists, with the values each call returned, the
    runs the program text allows; [exec_path] below shows that every
    execution is one of them. *)

Definition init_call : call (Z * z_stream) :=
  deflateInit2 z_stream_zero (-1) 8 (15 + 16) 8 0.

(** The header record when [deflateSetHeader] is called. *)
Definition head_of_run (stk : stack) (now : Z) : gz_header :=
  fill_head (head_garbage stk) now.

(** The stream when [deflate] is called: what [deflateSetHeader] left, with
    the four assignments of lines 30-34. *)
Definition views (s2 : z_stream) : z_stream :=
  set_next_out (Some 0)
    (set_avail_out (to_uInt sizeof_out)
       (set_next_in (Some TEXT)
          (set_avail_in (to_uInt (strlen TEXT)) s2))).

Inductive path (L : zlib) (stk : stack) (h : zstate L) (now : Z)
  : Z * world L -> Prop :=
| init_fails r1 s1 h1 :
    impl_deflateInit2 L z_stream_zero (-1) 8 (15 + 16) 8 0 h = (r1, s1, h1) ->
    r1 <> Z_OK ->
    path L stk h now (1, mk_world h1 now [] [Ev init_call (r1, s1)])
| deflate_fails s1 h1 r2 s2 h2 r3 s3 out3 h3 :
    impl_deflateInit2 L z_stream_zero (-1) 8 (15 + 16) 8 0 h
    = (Z_OK, s1, h1) ->
    impl_deflateSetHeader L s1 (head_of_run stk now) h1 = (r2, s2, h2) ->
    impl_deflate L (views s2) (out_array stk) Z_FINISH h2
    = (r3, s3, out3, h3) ->
    r3 <> Z_STREAM_END ->
    path L stk h now
      (1, mk_world h3 now []
            [Ev init_call (Z_OK, s1);
             Ev time_NULL now;
             Ev (deflateSetHeader s1 (head_of_run stk now)) (r2, s2);
             Ev (deflate (views s2) (out_array stk) Z_FINISH)
                (r3, s3, out3)])
| succeeds s1 h1 r2 s2 h2 s3 out3 h3 r4 s4 h4 :
    impl_deflateInit2 L z_stream_zero (-1) 8 (15 + 16) 8 0 h
    = (Z_OK, s1, h1) ->
    impl_deflateSetHeader L s1 (head_of_run stk now) h1 = (r2, s2, h2) ->
    impl_deflate L (views s2) (out_array stk) Z_FINISH h2
    = (Z_STREAM_END, s3, out3, h3) ->
    impl_deflateEnd L s3 h3 = (r4, s4, h4) ->
    let n := to_size_t (sizeof_out - avail_out s4) in
    path L stk h now
      (0, mk_world h4 now (firstn (Z.to_nat (1 * n)) out3)
            [Ev init_call (Z_OK, s1);
             Ev time_NULL now;
             Ev (deflateSetHeader s1 (head_of_run stk now)) (r2, s2);
             Ev (deflate (views s2) (out_array stk) Z_FINISH)
                (Z_STREAM_END, s3, out3);
             Ev (deflateEnd s3) (r4, s4);
             Ev (fwrite out3 1 n) n]).

(** ** Vocabulary of the statements *)

(** The one gzip member a successful run is to write, for a library whose
    compressor is [D]. *)
Definition member_of_run (D : deflater) (stk : stack) (now : Z) : list byte :=
  gzip_member (head_of_run stk now) (xfl_of D (-1) 0)
    (body_of D (-1) 8 0 TEXT_chars) TEXT_chars.

(** The eight bytes of the extra field. *)
Definition extra_bytes : list byte :=
  bytes_of_string "x1" ++ [4; 0] ++ bytes_of_string "abcd".

(** The 29 bytes between OS and the header CRC: XLEN, the extra field, the
    name and the comment. *)
Definition fields_of_run : list byte :=
  le16 8 ++ extra_bytes ++ name_literal ++ comment_literal.

(** Two byte streams of one length that agree at every index [skip] does
    not exempt. *)
Definition same_outside (skip : nat -> bool) (a b : list byte) : Prop :=
  List.length a = List.length b /\
  forall i, skip i = false -> nth_error a i = nth_error b i.

(** MTIME is bytes 4 to 7 of a member; in the members this program writes
    the header CRC is bytes 39 and 40. *)
Definition in_mtime (i : nat) : bool := (4 <=? i)%nat && (i <? 8)%nat.
Definition in_hcrc (i : nat) : bool := (39 <=? i)%nat && (i <? 41)%nat.

Definition word32 (z : Z) : Prop := 0 <= z < 2 ^ 32.

(** Two test vectors: DEFLATE streams written by zlib 1.2.13, the first
    for [TEXT] at the settings of the program (one fixed-Huffman block with
    back-references), the second a short dynamic-Huffman block. *)
Definition zlib_body_of_TEXT : list byte :=
  [11; 201; 200; 44; 86; 0; 162; 68; 133; 146; 212; 226; 18; 133; 252; 52;
   133; 146; 140; 84; 133; 212; 220; 212; 162; 244; 212; 188; 228; 74; 133;
   164; 162; 252; 196; 148; 228; 68; 160; 84; 113; 101; 113; 73; 106; 174;
   30; 87; 16; 80; 50; 55; 41; 181; 72; 7; 168; 18; 162; 55; 63; 47; 167;
   18; 106; 128; 30; 23; 0].
Definition zlib_dynamic_block : list byte :=
  [5; 193; 1; 1; 0; 0; 8; 131; 176; 172; 114; 232; 95; 193; 173; 37; 66;
   120; 102; 27; 62].

(** ** Variations of a library and of the stack *)

(** The library [L] with other statuses returned by [deflateSetHeader] and
    [deflateEnd]; everything else it does is unchanged. *)
Definition with_statuses (L : zlib) (r_set r_end : Z) : zlib :=
  {| zstate := zstate L;
     impl_deflateInit2 := impl_deflateInit2 L;
     impl_deflateSetHeader := fun strm head h =>
       let '(_, s, h') := impl_deflateSetHeader L strm head h in
       (r_set, s, h');
     impl_deflate := impl_deflate L;
     impl_deflateEnd := fun strm h =>
       let '(_, s, h') := impl_deflateEnd L strm h in
       (r_end, s, h') |}.

(** A stack that holds something else than zeros where [head] and [out]
    are declared. *)
Definition junk_header : gz_header :=
  mk_gz_header 7 123456789 255 11 (Some [1; 2; 3]) 3 99
    (Some [65; 0]) 42 None 17 0 1.
Definition junk_stack : stack :=
  mk_stack junk_header (fun i => Z.of_nat (i mod 251)).

(** The bytes of a member around its body: 41 of header and 8 of trailer. *)
Definition framing : Z := 49.

(** * Proofs *)

(** ** Little-endian fields and checksums *)

Lemma land_255 z : Z.land z 255 = z mod 256.
Proof. change 255 with (Z.ones 8). now rewrite Z.land_ones by lia. Qed.

Lemma land_65535 z : Z.land z 65535 = z mod 65536.
Proof. change 65535 with (Z.ones 16). now rewrite Z.land_ones by lia. Qed.

Lemma of_le_le16 z : of_le (le16 z) = z mod 65536.
Proof.
  unfold of_le, le16. cbn [fold_right].
  rewrite !land_255, Z.shiftr_div_pow2 by lia.
  change 65536 with (256 * 256). change (2 ^ 8) with 256.
  rewrite Z.rem_mul_r by lia. lia.
Qed.

Lemma of_le_le32 z : of_le (le32 z) = z mod 2 ^ 32.
Proof.
  unfold of_le, le32. cbn [fold_right].
  rewrite !land_255, !Z.shiftr_div_pow2 by lia.
  change (2 ^ 32) with (256 * (256 * (256 * 256))).
  change (2 ^ 8) with 256. change (2 ^ 16) with (256 * 256).
  change (2 ^ 24) with (256 * 256 * 256).
  rewrite !Z.rem_mul_r by lia.
  rewrite <- !Z.div_div by lia. lia.
Qed.

Lemma word32_bits z :
  word32 z <-> 0 <= z /\ forall i, 32 <= i -> Z.testbit z i = false.
Proof.
  unfold word32. split.
  - intros [Hz Hlt]. split; [assumption|]. intros i Hi.
    destruct (Z.eq_dec z 0) as [-> | Nz]; [apply Z.bits_0|].
    apply Z.bits_above_log2; [assumption|].
    assert (Z.log2 z < 32) by (apply Z.log2_lt_pow2; lia). lia.
  - intros [Hz Hb]. split; [assumption|].
    destruct (Z.eq_dec z 0) as [-> | Nz]; [reflexivity|].
    apply Z.log2_lt_pow2; [lia|].
    destruct (Z_lt_le_dec (Z.log2 z) 32) as [|Hge]; [assumption|].
    pose proof (Z.bit_log2 z ltac:(lia)) as B.
    rewrite (Hb _ Hge) in B. discriminate.
Qed.

Lemma word32_lxor a b : word32 a -> word32 b -> word32 (Z.lxor a b).
Proof.
  rewrite !word32_bits. intros [Ha Ba] [Hb Bb]. split.
  - apply Z.lxor_nonneg. tauto.
  - intros i Hi. now rewrite Z.lxor_spec, Ba, Bb.
Qed.

Lemma word32_shiftr a : word32 a -> word32 (Z.shiftr a 1).
Proof.
  unfold word32. intros [Ha Hlt]. rewrite Z.shiftr_div_pow2 by lia.
  change (2 ^ 1) with 2. split.
  - apply Z.div_pos; lia.
  - apply Z.div_lt_upper_bound; lia.
Qed.

Lemma word32_crc32_shift c : word32 c -> word32 (crc32_shift c).
Proof.
  intros H. unfold crc32_shift. destruct (Z.testbit c 0).
  - apply word32_lxor; [now apply word32_shiftr | unfold word32; lia].
  - now apply word32_shiftr.
Qed.

Lemma word32_crc32_byte c b : word32 c -> word32 (crc32_byte c b).
Proof.
  intros H. unfold crc32_byte.
  assert (W : word32 (Z.lxor c (Z.land b 255))).
  { apply word32_lxor; [assumption|]. rewrite land_255. unfold word32.
    pose proof (Z.mod_pos_bound b 256). lia. }
  revert W. generalize (Z.lxor c (Z.land b 255)). intros z W.
  cbn [Nat.iter]. now do 8 apply word32_crc32_shift.
Qed.

Lemma word32_fold_crc buf :
  forall c, word32 c -> word32 (fold_left crc32_byte buf c).
Proof.
  induction buf as [|b buf IH]; intros c H; cbn [fold_left]; [assumption|].
  apply IH. now apply word32_crc32_byte.
Qed.

(** A CRC-32 fits its four bytes. *)
Lemma crc32_range buf : 0 <= crc32 buf < 2 ^ 32.
Proof.
  unfold crc32, crc32_update. apply word32_lxor; [|unfold word32; lia].
  apply word32_fold_crc. unfold word32. cbn. lia.
Qed.

(** ** Reading back a header *)

Lemma firstn_app_length {A} (a r : list A) :
  firstn (List.length a) (a ++ r) = a.
Proof. induction a; cbn; [now destruct r | now f_equal]. Qed.

Lemma skipn_app_length {A} (a r : list A) :
  skipn (List.length a) (a ++ r) = r.
Proof. induction a; cbn; auto. Qed.

Lemma take_app a r : take (List.length a) (a ++ r) = Some (a, r).
Proof.
  unfold take. rewrite length_app.
  replace (List.length a <=? List.length a + List.length r)%nat with true
    by (symmetry; apply Nat.leb_le; lia).
  now rewrite firstn_app_length, skipn_app_length.
Qed.

Lemma c_string_chars s : In 0 s -> c_string s = c_chars s ++ [0].
Proof.
  induction s as [|b s IH]; cbn [In c_string c_chars]; [contradiction|].
  intros [-> | I]; [reflexivity|].
  destruct (b =? 0); [reflexivity|]. cbn. now rewrite IH.
Qed.

Lemma take_string_c_string s r :
  In 0 s -> take_string (c_string s ++ r) = Some (c_chars s, r).
Proof.
  induction s as [|b s IH]; cbn [In c_string c_chars]; [contradiction|].
  intros I. destruct (Z.eqb_spec b 0) as [-> | N].
  - reflexivity.
  - destruct I as [-> | I]; [now elim N|].
    cbn [app take_string]. destruct (Z.eqb_spec b 0); [contradiction|].
    now rewrite IH.
Qed.

Ltac flag_cases h :=
  unfold flg;
  destruct (is_set (text h)), (is_set (hcrc h)), (extra h), (name h),
    (comment h).

Lemma flg_range h : 0 <= flg h < 32.
Proof. flag_cases h; cbn; lia. Qed.

Lemma flg_text h : Z.testbit (flg h) 0 = is_set (text h).
Proof. flag_cases h; reflexivity. Qed.

Lemma flg_hcrc h : Z.testbit (flg h) 1 = is_set (hcrc h).
Proof. flag_cases h; reflexivity. Qed.

Lemma flg_extra h :
  Z.testbit (flg h) 2 = match extra h with Some _ => true | None => false end.
Proof. flag_cases h; reflexivity. Qed.

Lemma flg_name h :
  Z.testbit (flg h) 3 = match name h with Some _ => true | None => false end.
Proof. flag_cases h; reflexivity. Qed.

Lemma flg_comment h :
  Z.testbit (flg h) 4
  = match comment h with Some _ => true | None => false end.
Proof. flag_cases h; reflexivity. Qed.

Lemma read_extra_field h r :
  readable h ->
  optional (Z.testbit (flg h) 2) read_extra (extra_field h ++ r)
  = Some (option_map (firstn (Z.to_nat (extra_len h))) (extra h), r).
Proof.
  intros (He & _ & _). rewrite flg_extra. unfold extra_field.
  destruct (extra h) as [e|]; [|reflexivity].
  destruct (He e eq_refl) as [R Len].
  cbn [optional option_map]. unfold read_extra.
  rewrite <- app_assoc.
  change (take 2 (le16 (extra_len h) ++ ?x))
    with (take (List.length (le16 (extra_len h))) (le16 (extra_len h) ++ x)).
  rewrite take_app, of_le_le16, Z.mod_small by lia.
  replace (Z.to_nat (extra_len h))
    with (List.length (firstn (Z.to_nat (extra_len h)) e)) at 1
    by (rewrite length_firstn; lia).
  now rewrite take_app.
Qed.

Lemma read_string_field p r bit :
  (forall s, p = Some s -> In 0 s) ->
  bit = match p with Some _ => true | None => false end ->
  optional bit take_string (string_field p ++ r)
  = Some (option_map c_chars p, r).
Proof.
  intros I ->. destruct p as [s|]; [|reflexivity].
  cbn [optional string_field option_map].
  now rewrite take_string_c_string by auto.
Qed.

Lemma read_hcrc_field h xfl r :
  optional (Z.testbit (flg h) 1) read_hcrc
    ((if is_set (hcrc h) then crc16 (header_body h xfl) else []) ++ r)
  = Some (info_hcrc (info_of h xfl), r).
Proof.
  rewrite flg_hcrc. cbn [info_of info_hcrc].
  destruct (is_set (hcrc h)); [|reflexivity].
  cbn [optional]. unfold read_hcrc, crc16.
  change (take 2 (le16 ?c ++ ?x))
    with (take (List.length (le16 c)) (le16 c ++ x)).
  now rewrite take_app, of_le_le16, land_65535.
Qed.

(** A decoder reads from the header written for [h] what [info_of h] says,
    and stops where the header ends. *)
Lemma covered_prefix (body whole tail : list byte) :
  whole = body ++ tail ->
  firstn (List.length whole - List.length tail) whole = body.
Proof.
  intros ->. rewrite length_app.
  replace (List.length body + List.length tail - List.length tail)%nat
    with (List.length body) by lia.
  apply firstn_app_length.
Qed.

Lemma read_header_bytes h xfl rest :
  readable h ->
  read_header (header_bytes h xfl ++ rest) = Some (info_of h xfl, rest).
Proof.
  intros R.
  unfold header_bytes. rewrite <- app_assoc.
  set (tail := (if is_set (hcrc h) then crc16 (header_body h xfl) else [])
               ++ rest).
  assert (Whole : header_body h xfl ++ tail
                  = [31; 139; 8; flg h] ++ le32 (time h) ++
                    [xfl; Z.land (os h) 255] ++ extra_field h ++
                    string_field (name h) ++ string_field (comment h) ++ tail).
  { unfold header_body, fixed_fields. now rewrite <- !app_assoc. }
  rewrite Whole. symmetry in Whole. revert Whole.
  cbn [app le32]. intros Whole.
  unfold read_header.
  pose proof (flg_range h) as [F0 F1].
  replace (0 <=? flg h) with true by (symmetry; apply Z.leb_le; lia).
  replace (flg h <? 32) with true by (symmetry; apply Z.ltb_lt; lia).
  rewrite !Z.eqb_refl. cbn [andb negb].
  rewrite read_extra_field by assumption.
  destruct R as (_ & Rn & Rc).
  rewrite (read_string_field (name h)) by (auto using flg_name).
  rewrite (read_string_field (comment h)) by (auto using flg_comment).
  unfold tail at 1. rewrite read_hcrc_field.
  rewrite (covered_prefix (header_body h xfl) _ tail Whole).
  replace (match info_hcrc (info_of h xfl) with
           | Some c => c =? Z.land (crc32 (header_body h xfl)) 65535
           | None => true
           end) with true.
  2: { cbn [info_of info_hcrc].
       destruct (is_set (hcrc h)); [now rewrite Z.eqb_refl | reflexivity]. }
  rewrite flg_text. unfold info_of. do 2 f_equal.
  change [Z.land (time h) 255; Z.land (Z.shiftr (time h) 8) 255;
          Z.land (Z.shiftr (time h) 16) 255; Z.land (Z.shiftr (time h) 24) 255]
    with (le32 (time h)).
  now rewrite of_le_le32.
Qed.

(** ** Stored blocks decode to what they store *)

Lemma blocks_stored_header fuel inner b q out :
  b = 0 \/ b = 1 ->
  Inflate.blocks (S fuel) inner (Inflate.mk_stream (b :: q) 0) out
  = match Inflate.stored (Inflate.mk_stream (b :: q) 3) out with
    | None => None
    | Some (out', s) =>
        if b =? 1 then Some (out', s) else Inflate.blocks fuel inner s out'
    end.
Proof. intros [-> | ->]; reflexivity. Qed.

Lemma stored_block b n data r out :
  Z.of_nat (List.length data) = n ->
  n <= 65535 ->
  Inflate.stored
    (Inflate.mk_stream (b :: le16 n ++ le16 (65535 - n) ++ data ++ r) 3) out
  = Some (rev data ++ out, Inflate.mk_stream r 0).
Proof.
  intros Hn Hle. unfold Inflate.stored, Inflate.align.
  cbn [Inflate.used Inflate.bytes tl].
  unfold le16 at 1 2. cbn [app].
  change [Z.land n 255; Z.land (Z.shiftr n 8) 255] with (le16 n).
  change [Z.land (65535 - n) 255; Z.land (Z.shiftr (65535 - n) 8) 255]
    with (le16 (65535 - n)).
  rewrite !of_le_le16, !Z.mod_small by lia.
  replace (n + (65535 - n) =? 65535) with true
    by (symmetry; apply Z.eqb_eq; lia).
  cbn [negb].
  replace (Z.to_nat n) with (List.length data) by lia.
  now rewrite take_app.
Qed.

Lemma stored_blocks_decode chunk :
  1 <= chunk <= 65535 ->
  forall fuel data big inner rest out,
    (List.length data < fuel)%nat ->
    (fuel <= big)%nat ->
    Inflate.blocks big inner
      (Inflate.mk_stream (stored_blocks fuel chunk data ++ rest) 0) out
    = Some (rev data ++ out, Inflate.mk_stream rest 0).
Proof.
  intros Hc. induction fuel as [|fuel IH]; intros data big inner rest out Hd Hb.
  - lia.
  - destruct big as [|big]; [lia|].
    cbn [stored_blocks].
    destruct (Z.leb_spec (Z.of_nat (List.length data)) chunk) as [Hs | Hl].
    + rewrite <- !app_assoc. cbn [app].
      rewrite blocks_stored_header by auto.
      rewrite stored_block by lia. reflexivity.
    + rewrite <- !app_assoc. cbn [app].
      rewrite blocks_stored_header by auto.
      assert (Lf : List.length (firstn (Z.to_nat chunk) data) = Z.to_nat chunk).
      { rewrite length_firstn. lia. }
      rewrite stored_block by lia.
      change (0 =? 1) with false. cbv iota.
      rewrite IH.
      * rewrite app_assoc, <- rev_app_distr, firstn_skipn. reflexivity.
      * rewrite length_skipn. lia.
      * lia.
Qed.

Lemma stored_blocks_length chunk :
  1 <= chunk ->
  forall fuel data,
    (List.length data < fuel)%nat ->
    (List.length data <= List.length (stored_blocks fuel chunk data))%nat.
Proof.
  intros Hc. induction fuel as [|fuel IH]; intros data Hd; [lia|].
  cbn [stored_blocks].
  destruct (Z.leb_spec (Z.of_nat (List.length data)) chunk) as [Hs | Hl].
  - rewrite !length_app. lia.
  - rewrite !length_app.
    specialize (IH (skipn (Z.to_nat chunk) data)).
    rewrite length_skipn in IH. rewrite length_firstn. lia.
Qed.

(** The storing compressor is sound whatever the block size. *)
Lemma storing_sound chunk : sound (storing chunk).
Proof.
  intros level memLevel strategy data rest.
  cbn [body_of storing]. unfold Inflate.inflate.
  assert (Hc : 1 <= clamp 1 65535 chunk <= 65535) by (unfold clamp; lia).
  rewrite stored_blocks_decode; try assumption; try lia.
  - cbn [Inflate.align Inflate.used Inflate.bytes].
    now rewrite app_nil_r, rev_involutive.
  - unfold Inflate.enough. rewrite length_app.
    pose proof (stored_blocks_length (clamp 1 65535 chunk) ltac:(lia)
                  (S (List.length data)) data ltac:(lia)).
    lia.
Qed.

(** ** The reference implementation meets the contract *)

Lemma emit_spec bs off room out out' written unsent :
  emit bs off room out = (out', written, unsent) ->
  0 <= off <= Z.of_nat (List.length out) ->
  0 <= room ->
  bs = written ++ unsent /\
  Z.of_nat (List.length written) <= room /\
  List.length out' = List.length out /\
  firstn (List.length written) (skipn (Z.to_nat off) out') = written.
Proof.
  unfold emit. intros E Hoff Hroom. inversion E; subst; clear E.
  set (n := Z.to_nat
              (Z.min (Z.min room (Z.of_nat (List.length out) - off))
                 (Z.of_nat (List.length bs)))).
  assert (Hn : (n <= List.length bs)%nat) by lia.
  assert (Hn' : (Z.to_nat off + n <= List.length out)%nat) by lia.
  assert (Lw : List.length (firstn n bs) = n) by (rewrite length_firstn; lia).
  repeat split.
  - now rewrite firstn_skipn.
  - rewrite Lw. lia.
  - rewrite !length_app, length_firstn, Lw, length_skipn. lia.
  - rewrite Lw.
    replace (Z.to_nat off)
      with (List.length (firstn (Z.to_nat off) out)) at 1
      by (rewrite length_firstn; lia).
    rewrite skipn_app_length.
    rewrite <- Lw at 1. apply firstn_app_length.
Qed.

Lemma reference_keeps_buffers D : keeps_buffers (reference D).
Proof.
  split.
  - cbn [impl_deflate reference]. unfold ref_deflate.
    intros s out flush h r s' out' h' E A.
    destruct (next_out s) as [off|];
      [|inversion E; subst; split; [lia | reflexivity]].
    destruct ((flush =? Z_FINISH) && (0 <=? off)
              && (off <=? Z.of_nat (List.length out))) eqn:G; cbn [negb] in E;
      [|inversion E; subst; split; [lia | reflexivity]].
    apply andb_prop in G as [G G3]. apply andb_prop in G as [G1 G2].
    apply Z.leb_le in G2, G3.
    match type of E with
    | match ?p with _ => _ end = _ => destruct p as [[[bs taken] sum]|]
    end; [|inversion E; subst; split; [lia | reflexivity]].
    destruct (Z.leb_spec (avail_out s) 0);
      [inversion E; subst; split; [lia | reflexivity]|].
    destruct (emit bs off (avail_out s) out) as [[o w] u] eqn:Em.
    destruct (emit_spec _ _ _ _ _ _ _ Em) as (_ & Hw & Hl & _); try lia.
    destruct u; inversion E; subst; cbn [avail_out]; split; try assumption; lia.
  - cbn [impl_deflateEnd reference]. unfold ref_deflateEnd.
    intros s h r s' h' E. destruct (status h); now inversion E.
Qed.

Lemma reference_writes_gzip D : writes_gzip (reference D) D.
Proof.
  split. cbn [impl_deflateInit2 impl_deflateSetHeader impl_deflate reference].
  intros s0 h0 level memLevel strategy s1 h1 head r2 s2 h2 s input out s3
    out' h3 E1 E2 R P In Ain Nout Aout E3.
  set (data := firstn (Z.to_nat (avail_in s)) input).
  unfold ref_deflateInit2 in E1.
  match type of E1 with
  | (if ?c then _ else _) = _ => destruct c; [discriminate|]
  end.
  destruct (memory h0); cbn [negb] in E1; [|discriminate].
  inversion E1; subst s1 h1; clear E1.
  unfold ref_deflateSetHeader in E2. cbn [status] in E2.
  inversion E2; subst r2 s2 h2; clear E2.
  unfold ref_deflate in E3. rewrite Nout, In in E3.
  cbn [status params gzhead memory] in E3.
  replace ((Z_FINISH =? Z_FINISH) && (0 <=? 0)
           && (0 <=? Z.of_nat (List.length out))) with true in E3
    by (symmetry; rewrite Z.eqb_refl; cbn [andb]; apply Z.leb_le; lia).
  cbn [negb] in E3.
  replace ((0 <=? avail_in s) && (avail_in s <=? Z.of_nat (List.length input)))
    with true in E3
    by (symmetry; apply andb_true_intro; split; apply Z.leb_le; lia).
  fold data in E3.
  destruct (Z.leb_spec (avail_out s) 0); [discriminate|].
  match type of E3 with
  | context [emit ?bs 0 (avail_out s) out] =>
      destruct (emit bs 0 (avail_out s) out) as [[o w] u] eqn:Em
  end.
  destruct (emit_spec _ _ _ _ _ _ _ Em) as (Hb & Hw & Hl & Hf); try lia.
  destruct u; [|discriminate].
  inversion E3; subst s3 out' h3; clear E3.
  unfold produced. rewrite Nout. cbn [avail_out].
  replace (Z.to_nat (avail_out s - (avail_out s - Z.of_nat (List.length w))))
    with (List.length w) by lia.
  rewrite Hf. rewrite app_nil_r in Hb. now rewrite <- Hb.
Qed.

Lemma reference_conforms D : conforms (reference D) D.
Proof.
  split; [apply reference_keeps_buffers | apply reference_writes_gzip].
Qed.

(** ** Every execution follows one of the three paths *)

Lemma exec_path (L : zlib) stk h now : path L stk h now (exec L stk h now).
Proof.
  unfold exec, main, boot.
  cbn [run perform heap clock stdout trace with_heap record app].
  destruct (impl_deflateInit2 L z_stream_zero (-1) 8 (15 + 16) 8 0 h)
    as [[r1 s1] h1] eqn:E1.
  cbn [run perform heap clock stdout trace with_heap record app].
  destruct (Z.eqb_spec r1 Z_OK) as [-> | N1]; cbn [negb].
  2: { cbn [run]. now apply init_fails. }
  cbn [run perform heap clock stdout trace with_heap record app].
  destruct (impl_deflateSetHeader L s1
              (fill_head (head_garbage stk) now) h1) as [[r2 s2] h2] eqn:E2.
  cbn [run perform heap clock stdout trace with_heap record app].
  destruct (impl_deflate L
              (set_next_out (Some 0)
                 (set_avail_out (to_uInt sizeof_out)
                    (set_next_in (Some TEXT)
                       (set_avail_in (to_uInt (strlen TEXT)) s2))))
              (out_array stk) Z_FINISH h2) as [[[r3 s3] out3] h3] eqn:E3.
  cbn [run perform heap clock stdout trace with_heap record app].
  destruct (Z.eqb_spec r3 Z_STREAM_END) as [-> | N3]; cbn [negb].
  2: { cbn [run]. now apply deflate_fails with (h1 := h1) (h2 := h2). }
  cbn [run perform heap clock stdout trace with_heap record app].
  destruct (impl_deflateEnd L s3 h3) as [[r4 s4] h4] eqn:E4.
  cbn [run perform heap clock stdout trace with_heap record app].
  now apply succeeds with (h1 := h1) (h2 := h2) (h3 := h3).
Qed.

Lemma avail_out_views s : avail_out (views s) = 256.
Proof. reflexivity. Qed.

Lemma out_array_length stk : List.length (out_array stk) = 256%nat.
Proof. unfold out_array. now rewrite length_map, length_seq. Qed.

(** Three runs of the reference implementations, one for each path. *)
Example plain_run :
  let r := exec plain zero_stack (fresh true) 0 in
  exit_status r = 0 /\ List.length (output r) = 135%nat /\
  calls (history r)
  = [fn_deflateInit2; fn_time; fn_deflateSetHeader; fn_deflate;
     fn_deflateEnd; fn_fwrite].
Proof. vm_compute. auto. Qed.

Example wasteful_run :
  let r := exec wasteful zero_stack (fresh true) 0 in
  exit_status r = 1 /\ output r = [] /\
  returns fn_deflate (history r) = [Z_OK] /\
  map (fun d => avail_out (fst d)) (deflated (history r)) = [0].
Proof. vm_compute. auto. Qed.

Example out_of_memory_run :
  let r := exec plain zero_stack (fresh false) 0 in
  exit_status r = 1 /\ output r = [] /\
  returns fn_deflateInit2 (history r) = [Z_MEM_ERROR].
Proof. vm_compute. auto. Qed.

(** ** Exit status, output and calls on each path *)

(** C4.  The exit status is 0 exactly when [deflateInit2] returned [Z_OK]
    and [deflate] returned [Z_STREAM_END]; it is 1 when [deflateInit2]
    returned anything else, and 1 when [deflate] returned anything else;
    no run has another status. *)
Theorem exit_status_cases (L : zlib) stk h now :
  let r := exec L stk h now in
  (exit_status r = 0 /\
   returns fn_deflateInit2 (history r) = [Z_OK] /\
   returns fn_deflate (history r) = [Z_STREAM_END]) \/
  (exit_status r = 1 /\
   exists e, e <> Z_OK /\ returns fn_deflateInit2 (history r) = [e]) \/
  (exit_status r = 1 /\
   returns fn_deflateInit2 (history r) = [Z_OK] /\
   exists e, e <> Z_STREAM_END /\ returns fn_deflate (history r) = [e]).
Proof.
  intros r. subst r.
  destruct (exec_path L stk h now).
  - right; left. split; [reflexivity|]. now exists r1.
  - right; right. repeat split. now exists r3.
  - left. now repeat split.
Qed.

(** C2.  When the [deflate] call returns anything but [Z_STREAM_END] (an
    output buffer too small for the member is one way), the program exits
    with status 1, standard output holds no byte, and [fwrite] was never
    called. *)
Theorem failed_deflate_writes_nothing (L : zlib) stk h now e :
  In e (returns fn_deflate (history (exec L stk h now))) ->
  e <> Z_STREAM_END ->
  exit_status (exec L stk h now) = 1 /\
  output (exec L stk h now) = [] /\
  fwrites (history (exec L stk h now)) = [].
Proof.
  destruct (exec_path L stk h now); cbn; intros I N.
  - now repeat split.
  - now repeat split.
  - destruct I as [<- | []]. now elim N.
Qed.

Lemma failed_deflate_writes_nothing_witness :
  In Z_OK
    (returns fn_deflate (history (exec wasteful zero_stack (fresh true) 0))) /\
  Z_OK <> Z_STREAM_END /\
  exit_status (exec wasteful zero_stack (fresh true) 0) = 1 /\
  output (exec wasteful zero_stack (fresh true) 0) = [] /\
  fwrites (history (exec wasteful zero_stack (fresh true) 0)) = [].
Proof.
  assert (I : In Z_OK
                (returns fn_deflate
                   (history (exec wasteful zero_stack (fresh true) 0))))
    by (vm_compute; auto).
  assert (N : Z_OK <> Z_STREAM_END) by discriminate.
  split; [exact I|]. split; [exact N|].
  exact (failed_deflate_writes_nothing wasteful zero_stack (fresh true) 0
           Z_OK I N).
Defined.

(** C7.  When [deflateInit2] returns anything but [Z_OK], the program exits
    with a non-zero status, [deflateInit2] is the only call it ever made
    (no [deflateSetHeader], no [deflate], no [fwrite]), and standard output
    holds no byte. *)
Theorem failed_init_stops (L : zlib) stk h now e :
  In e (returns fn_deflateInit2 (history (exec L stk h now))) ->
  e <> Z_OK ->
  exit_status (exec L stk h now) <> 0 /\
  calls (history (exec L stk h now)) = [fn_deflateInit2] /\
  output (exec L stk h now) = [].
Proof.
  destruct (exec_path L stk h now); cbn; intros I N.
  - now repeat split.
  - destruct I as [<- | []]. now elim N.
  - destruct I as [<- | []]. now elim N.
Qed.

Lemma failed_init_stops_witness :
  In Z_MEM_ERROR
    (returns fn_deflateInit2
       (history (exec plain zero_stack (fresh false) 0))) /\
  Z_MEM_ERROR <> Z_OK /\
  exit_status (exec plain zero_stack (fresh false) 0) <> 0 /\
  calls (history (exec plain zero_stack (fresh false) 0))
  = [fn_deflateInit2] /\
  output (exec plain zero_stack (fresh false) 0) = [].
Proof.
  assert (I : In Z_MEM_ERROR
                (returns fn_deflateInit2
                   (history (exec plain zero_stack (fresh false) 0))))
    by (vm_compute; auto).
  assert (N : Z_MEM_ERROR <> Z_OK) by discriminate.
  split; [exact I|]. split; [exact N|].
  exact (failed_init_stops plain zero_stack (fresh false) 0 Z_MEM_ERROR I N).
Defined.

(** On the successful path the context is torn down once, after the
    compression, and only [fwrite] follows. *)
Lemma success_calls (L : zlib) stk h now :
  exit_status (exec L stk h now) = 0 ->
  calls (history (exec L stk h now))
  = [fn_deflateInit2; fn_time; fn_deflateSetHeader; fn_deflate;
     fn_deflateEnd; fn_fwrite].
Proof.
  destruct (exec_path L stk h now); cbn; intros E; now try discriminate.
Qed.

(** C3, as the code has it.  When the [deflate] call returns anything but
    [Z_STREAM_END], the program has made its one compression attempt and
    terminates without tearing the context down: [deflate] is the last call
    of the run and [deflateEnd] is called zero times, not once. *)
Theorem failed_deflate_skips_deflateEnd (L : zlib) stk h now e :
  In e (returns fn_deflate (history (exec L stk h now))) ->
  e <> Z_STREAM_END ->
  calls (history (exec L stk h now))
  = [fn_deflateInit2; fn_time; fn_deflateSetHeader; fn_deflate] /\
  times_called fn_deflate (history (exec L stk h now)) = 1%nat /\
  times_called fn_deflateEnd (history (exec L stk h now)) = 0%nat.
Proof.
  destruct (exec_path L stk h now); cbn; intros I N.
  - contradiction.
  - now repeat split.
  - destruct I as [<- | []]. now elim N.
Qed.

Lemma failed_deflate_skips_deflateEnd_witness :
  In Z_OK
    (returns fn_deflate (history (exec wasteful zero_stack (fresh true) 0))) /\
  Z_OK <> Z_STREAM_END /\
  calls (history (exec wasteful zero_stack (fresh true) 0))
  = [fn_deflateInit2; fn_time; fn_deflateSetHeader; fn_deflate] /\
  times_called fn_deflate
    (history (exec wasteful zero_stack (fresh true) 0)) = 1%nat /\
  times_called fn_deflateEnd
    (history (exec wasteful zero_stack (fresh true) 0)) = 0%nat.
Proof.
  assert (I : In Z_OK
                (returns fn_deflate
                   (history (exec wasteful zero_stack (fresh true) 0))))
    by (vm_compute; auto).
  assert (N : Z_OK <> Z_STREAM_END) by discriminate.
  split; [exact I|]. split; [exact N|].
  exact (failed_deflate_skips_deflateEnd wasteful zero_stack (fresh true) 0
           Z_OK I N).
Defined.

(** ** With a library that keeps to the buffers *)

Section Buffers.

Variable L : zlib.
Hypothesis buffers : keeps_buffers L.

(** What the program sends to [fwrite] on the successful path. *)
Lemma success_output stk h now :
  exit_status (exec L stk h now) = 0 ->
  exists s1 h1 r2 s2 h2 s3 out3 h3,
    impl_deflateInit2 L z_stream_zero (-1) 8 (15 + 16) 8 0 h
    = (Z_OK, s1, h1) /\
    impl_deflateSetHeader L s1 (head_of_run stk now) h1 = (r2, s2, h2) /\
    impl_deflate L (views s2) (out_array stk) Z_FINISH h2
    = (Z_STREAM_END, s3, out3, h3) /\
    0 <= avail_out s3 <= 256 /\
    List.length out3 = 256%nat /\
    deflated (history (exec L stk h now)) = [(s3, out3)] /\
    fwrites (history (exec L stk h now))
    = [(out3, 1, sizeof_out - avail_out s3)] /\
    output (exec L stk h now)
    = firstn (Z.to_nat (sizeof_out - avail_out s3)) out3.
Proof.
  destruct (exec_path L stk h now) as
    [ | | s1 h1 r2 s2 h2 s3 out3 h3 r4 s4 h4 E1 E2 E3 E4 n];
    cbn [exit_status fst]; intros E; try discriminate.
  destruct (deflate_avail_out L buffers _ _ _ _ _ _ _ _ E3) as [B Len].
  { rewrite avail_out_views. lia. }
  rewrite avail_out_views in B. rewrite out_array_length in Len.
  pose proof (deflateEnd_avail_out L buffers _ _ _ _ _ E4) as A.
  assert (N : n = sizeof_out - avail_out s3).
  { subst n. rewrite A. unfold to_size_t, sizeof_out.
    apply Z.mod_small. lia. }
  exists s1, h1, r2, s2, h2, s3, out3, h3.
  repeat split; try assumption; try lia.
  - cbn. now rewrite N.
  - cbn [output snd stdout]. rewrite N. f_equal. lia.
Qed.

(** C6.  With a library that keeps to the buffers, a successful run hands
    [fwrite] the output array as [deflate] left it, with size 1 and count
    256 minus the [avail_out] that [deflate] left, and standard output
    holds exactly that many bytes: the leading bytes of the array, with
    nothing before or after them. *)
Theorem emit_is_produced_count stk h now :
  exit_status (exec L stk h now) = 0 ->
  exists s3 out3,
    deflated (history (exec L stk h now)) = [(s3, out3)] /\
    fwrites (history (exec L stk h now))
    = [(out3, 1, sizeof_out - avail_out s3)] /\
    output (exec L stk h now)
    = firstn (Z.to_nat (sizeof_out - avail_out s3)) out3 /\
    Z.of_nat (List.length (output (exec L stk h now)))
    = sizeof_out - avail_out s3.
Proof.
  intros E.
  destruct (success_output stk h now E)
    as (s1 & h1 & r2 & s2 & h2 & s3 & out3 & h3
        & _ & _ & _ & B & Len & D & F & O).
  exists s3, out3. repeat split; try assumption.
  rewrite O, length_firstn, Len. unfold sizeof_out. lia.
Qed.

(** C9.  With a library that keeps to the buffers, in every run the output
    array still has its 256 bytes, standard output holds at most 256 bytes,
    those bytes are a prefix of the array's contents, and every [fwrite]
    reads from that array no more than it holds. *)
Theorem output_within_buffer stk h now :
  let r := exec L stk h now in
  let buf := out_after stk (history r) in
  List.length buf = 256%nat /\
  (List.length (output r) <= 256)%nat /\
  output r = firstn (List.length (output r)) buf /\
  Forall (fun w => fst (fst w) = buf /\
                   0 <= snd (fst w) * snd w <= sizeof_out)
    (fwrites (history r)).
Proof.
  cbv zeta.
  destruct (Z.eq_dec (exit_status (exec L stk h now)) 0) as [E | E].
  - destruct (success_output stk h now E)
      as (s1 & h1 & r2 & s2 & h2 & s3 & out3 & h3
          & _ & _ & _ & B & Len & D & F & O).
    unfold out_after. rewrite D, F. cbn [map snd last].
    assert (Lo : List.length (output (exec L stk h now))
                 = Z.to_nat (sizeof_out - avail_out s3)).
    { rewrite O, length_firstn, Len. unfold sizeof_out. lia. }
    repeat split.
    + exact Len.
    + rewrite Lo. unfold sizeof_out. lia.
    + now rewrite Lo.
    + constructor; [|constructor]. cbn [fst snd].
      split; [reflexivity | unfold sizeof_out; lia].
  - revert E.
    destruct (exec_path L stk h now)
      as [ | s1 h1 r2 s2 h2 r3 s3 out3 h3 E1 E2 E3 N3 | ];
      cbn [exit_status output history fst snd stdout trace]; intros E.
    + unfold out_after.
      cbn [deflated fwrites flat_map app map last snd init_call].
      rewrite out_array_length. repeat split; auto using Nat.le_0_l.
    + unfold out_after.
      cbn [deflated fwrites flat_map app map last snd fst init_call].
      destruct (deflate_avail_out L buffers _ _ _ _ _ _ _ _ E3) as [_ Len].
      { rewrite avail_out_views. lia. }
      rewrite out_array_length in Len.
      repeat split; auto using Nat.le_0_l.
    + now elim E.
Qed.

End Buffers.

Lemma emit_is_produced_count_witness :
  keeps_buffers plain /\
  exit_status (exec plain zero_stack (fresh true) 0) = 0 /\
  exists s3 out3,
    deflated (history (exec plain zero_stack (fresh true) 0))
    = [(s3, out3)] /\
    fwrites (history (exec plain zero_stack (fresh true) 0))
    = [(out3, 1, sizeof_out - avail_out s3)] /\
    output (exec plain zero_stack (fresh true) 0)
    = firstn (Z.to_nat (sizeof_out - avail_out s3)) out3 /\
    Z.of_nat (List.length (output (exec plain zero_stack (fresh true) 0)))
    = sizeof_out - avail_out s3.
Proof.
  assert (E : exit_status (exec plain zero_stack (fresh true) 0) = 0)
    by (vm_compute; reflexivity).
  split; [apply reference_keeps_buffers|]. split; [exact E|].
  exact (emit_is_produced_count plain (reference_keeps_buffers _)
           zero_stack (fresh true) 0 E).
Defined.

Lemma output_within_buffer_witness :
  keeps_buffers plain /\
  let r := exec plain zero_stack (fresh true) 0 in
  let buf := out_after zero_stack (history r) in
  List.length buf = 256%nat /\
  (List.length (output r) <= 256)%nat /\
  output r = firstn (List.length (output r)) buf /\
  Forall (fun w => fst (fst w) = buf /\
                   0 <= snd (fst w) * snd w <= sizeof_out)
    (fwrites (history r)).
Proof.
  split; [apply reference_keeps_buffers|].
  exact (output_within_buffer plain (reference_keeps_buffers _)
           zero_stack (fresh true) 0).
Defined.

(** ** Facts about the program's constants and the format *)

Lemma head_of_run_readable stk now : readable (head_of_run stk now).
Proof.
  unfold readable, head_of_run, fill_head.
  cbn [extra extra_len name comment].
  split; [|split]; intros s E; inversion E; subst; vm_compute.
  - repeat split; try discriminate. lia.
  - tauto.
  - tauto.
Qed.

(** [strlen(TEXT)] is 81, so the input handed to [deflate] is the text
    without the NUL that closes the literal. *)
Lemma avail_in_of_run : to_uInt (strlen TEXT) = 81.
Proof. vm_compute. reflexivity. Qed.

Lemma input_of_run :
  firstn (Z.to_nat (to_uInt (strlen TEXT))) TEXT = TEXT_chars.
Proof. vm_compute. reflexivity. Qed.

(** The decoder reads streams zlib wrote: fixed and dynamic Huffman
    blocks. *)
Example inflate_zlib_body :
  Inflate.inflate zlib_body_of_TEXT = Some (TEXT_chars, []).
Proof. vm_compute. reflexivity. Qed.

Example inflate_dynamic_block :
  Inflate.inflate (zlib_dynamic_block ++ [7])
  = Some (bytes_of_string "ecedbdbbebdadedeccbd", [7]).
Proof. vm_compute. reflexivity. Qed.

(** A member decodes to its data when its body does. *)
Lemma gunzip_member h xfl body data :
  readable h ->
  Inflate.inflate (body ++ trailer_bytes data)
  = Some (data, trailer_bytes data) ->
  gunzip (gzip_member h xfl body data) = Some (info_of h xfl, data).
Proof.
  intros R I. unfold gunzip, gzip_member.
  rewrite read_header_bytes by assumption. rewrite I.
  unfold trailer_bytes. unfold le32 at 1 2. cbn [app].
  match goal with
  | |- context [of_le [Z.land ?x 255; _; _; _] =? crc32 data] =>
      change (of_le [Z.land x 255; Z.land (Z.shiftr x 8) 255;
                     Z.land (Z.shiftr x 16) 255; Z.land (Z.shiftr x 24) 255])
        with (of_le (le32 x))
  end.
  match goal with
  | |- context [of_le [Z.land ?x 255; _; _; _] =? Z.of_nat _ mod _] =>
      change (of_le [Z.land x 255; Z.land (Z.shiftr x 8) 255;
                     Z.land (Z.shiftr x 16) 255; Z.land (Z.shiftr x 24) 255])
        with (of_le (le32 x))
  end.
  rewrite !of_le_le32, (Z.mod_small (crc32 data)) by apply crc32_range.
  now rewrite !Z.eqb_refl.
Qed.

Lemma skipn_trailer (front trailer : list byte) :
  skipn (List.length (front ++ trailer) - List.length trailer)
    (front ++ trailer) = trailer.
Proof.
  rewrite length_app.
  replace (List.length front + List.length trailer - List.length trailer)%nat
    with (List.length front) by lia.
  apply skipn_app_length.
Qed.

(** The layout of the member: four constant bytes, MTIME, 31 bytes that do
    not depend on the run, the header CRC, then body and trailer. *)
Lemma member_layout (D : deflater) stk now :
  member_of_run D stk now
  = [31; 139; 8; 31] ++ le32 (to_uLong now) ++
    ([xfl_of D (-1) 0; 3] ++ fields_of_run) ++
    crc16 (header_body (head_of_run stk now) (xfl_of D (-1) 0)) ++
    body_of D (-1) 8 0 TEXT_chars ++ trailer_bytes TEXT_chars.
Proof. reflexivity. Qed.

Lemma header_body_of_run stk now xfl :
  header_body (head_of_run stk now) xfl
  = [31; 139; 8; 31] ++ le32 (to_uLong now) ++ [xfl; 3] ++ fields_of_run.
Proof. reflexivity. Qed.

Lemma same_outside_layout (a t1 t2 b c1 c2 r : list byte) :
  List.length a = 4%nat ->
  List.length t1 = 4%nat -> List.length t2 = 4%nat ->
  List.length b = 31%nat ->
  List.length c1 = 2%nat -> List.length c2 = 2%nat ->
  same_outside (fun i => in_mtime i || in_hcrc i)
    (a ++ t1 ++ b ++ c1 ++ r) (a ++ t2 ++ b ++ c2 ++ r).
Proof.
  intros La Lt1 Lt2 Lb Lc1 Lc2. split.
  - rewrite !length_app. lia.
  - intros i Hi. apply orb_false_elim in Hi as [Hm Hc].
    unfold in_mtime in Hm. unfold in_hcrc in Hc.
    apply andb_false_elim in Hm. apply andb_false_elim in Hc.
    assert (Cases : (i < 4 \/ 8 <= i < 39 \/ 41 <= i)%nat).
    { destruct Hm as [Hm | Hm], Hc as [Hc | Hc];
        first [apply Nat.leb_gt in Hm | apply Nat.ltb_ge in Hm];
        first [apply Nat.leb_gt in Hc | apply Nat.ltb_ge in Hc]; lia. }
    destruct Cases as [H | [H | H]].
    + now rewrite !nth_error_app1 by lia.
    + rewrite !(nth_error_app2 a) by lia.
      rewrite (nth_error_app2 t1), (nth_error_app2 t2) by lia.
      rewrite La, Lt1, Lt2.
      now rewrite !nth_error_app1 by lia.
    + rewrite !(nth_error_app2 a) by lia.
      rewrite (nth_error_app2 t1), (nth_error_app2 t2) by lia.
      rewrite La, Lt1, Lt2.
      rewrite !(nth_error_app2 b) by lia.
      rewrite (nth_error_app2 c1), (nth_error_app2 c2) by lia.
      now rewrite Lb, Lc1, Lc2.
Qed.

(** The first byte of the header CRC at clock 0 and at clock 1, for every
    XFL byte. *)
Lemma hcrc_byte_0_1 xfl :
  0 <= xfl < 256 ->
  Z.land (crc32 ([31; 139; 8; 31] ++ le32 (to_uLong 0) ++ [xfl; 3]
                 ++ fields_of_run)) 255
  <> Z.land (crc32 ([31; 139; 8; 31] ++ le32 (to_uLong 1) ++ [xfl; 3]
                    ++ fields_of_run)) 255.
Proof.
  intros R.
  assert (All : forallb
            (fun x =>
               negb (Z.land (crc32 ([31; 139; 8; 31] ++ le32 (to_uLong 0)
                                    ++ [x; 3] ++ fields_of_run)) 255
                     =? Z.land (crc32 ([31; 139; 8; 31] ++ le32 (to_uLong 1)
                                       ++ [x; 3] ++ fields_of_run)) 255))
            (map Z.of_nat (seq 0 256)) = true)
    by (vm_compute; reflexivity).
  assert (I : In xfl (map Z.of_nat (seq 0 256))).
  { apply in_map_iff. exists (Z.to_nat xfl). split; [lia|].
    apply in_seq. lia. }
  pose proof (proj1 (forallb_forall _ _) All xfl I) as Ne.
  cbv beta in Ne. apply negb_true_iff in Ne. now apply Z.eqb_neq in Ne.
Qed.

Lemma Some_neq {A} (a b : A) : a <> b -> Some a <> Some b.
Proof. congruence. Qed.

Lemma nth_error_skip (a l : list byte) (n i : nat) :
  List.length a = n -> nth_error (a ++ l) (n + i) = nth_error l i.
Proof.
  intros <-. rewrite nth_error_app2 by lia. f_equal. lia.
Qed.

(** ** With a library that implements the zlib contract *)

Section Conforming.

Variable L : zlib.
Variable D : deflater.
Hypothesis contract : conforms L D.

(** A successful run writes exactly one member: the header the program
    filled in, the compressor's body for the text, and the trailer. *)
Lemma success_member stk h now :
  exit_status (exec L stk h now) = 0 ->
  output (exec L stk h now) = member_of_run D stk now.
Proof.
  destruct contract as [K W]. intros E.
  destruct (success_output L K stk h now E)
    as (s1 & h1 & r2 & s2 & h2 & s3 & out3 & h3
        & E1 & E2 & E3 & B & Len & _ & _ & O).
  rewrite O.
  pose proof (finish_member L D W z_stream_zero h (-1) 8 0 s1 h1
                (head_of_run stk now) r2 s2 h2
                (views s2) TEXT (out_array stk) s3 out3 h3 E1 E2
                (head_of_run_readable stk now)) as M.
  cbv zeta in M.
  change (avail_in (views s2)) with (to_uInt (strlen TEXT)) in M.
  rewrite input_of_run, avail_in_of_run in M.
  unfold produced in M. change (next_out (views s2)) with (Some 0) in M.
  change (avail_out (views s2)) with 256 in M.
  cbv beta iota in M. change (Z.to_nat 0) with 0%nat in M. cbn [skipn] in M.
  apply M; try reflexivity.
  - now repeat split.
  - vm_compute. split; discriminate.
  - exact E3.
Qed.

Lemma success_header stk h now :
  exit_status (exec L stk h now) = 0 ->
  exists rest,
    output (exec L stk h now)
    = header_bytes (head_of_run stk now) (xfl_of D (-1) 0) ++ rest /\
    read_header (output (exec L stk h now))
    = Some (info_of (head_of_run stk now) (xfl_of D (-1) 0), rest).
Proof.
  intros E. rewrite (success_member stk h now E).
  unfold member_of_run, gzip_member. eexists. split; [reflexivity|].
  apply read_header_bytes, head_of_run_readable.
Qed.

(** C1.  With a library that implements the zlib contract with a sound
    compressor, what a run that exits with status 0 wrote to standard
    output is a gzip file that a decoder following RFC 1952 and RFC 1951
    accepts and decodes to the 81 bytes of [TEXT] before its closing NUL,
    and the last eight bytes of the output are the CRC32 of those 81 bytes
    and their count, each as four little-endian bytes. *)
Theorem output_decodes_to_text stk h now :
  sound D ->
  exit_status (exec L stk h now) = 0 ->
  let file := output (exec L stk h now) in
  (exists info, gunzip file = Some (info, TEXT_chars)) /\
  TEXT = TEXT_chars ++ [0] /\
  skipn (List.length file - 8) file
  = le32 (crc32 TEXT_chars) ++ le32 (Z.of_nat (List.length TEXT_chars)).
Proof.
  intros S E file. subst file.
  rewrite (success_member stk h now E). unfold member_of_run.
  repeat split.
  - eexists. apply gunzip_member; [apply head_of_run_readable | apply S].
  - unfold gzip_member. rewrite app_assoc.
    change 8%nat with (List.length (trailer_bytes TEXT_chars)).
    apply skipn_trailer.
Qed.

(** C5.  With a library that implements the zlib contract, the header a
    decoder reads from the output of a successful run has the file name
    [foo.bar], the comment [no comment] and the extra field
    [x 1 0x04 0x00 a b c d]; in the output, bytes 10 and 11 are the
    little-endian length 8, the eight bytes of the extra field follow, then
    [foo.bar] and its NUL, then [no comment] and its NUL. *)
Theorem header_carries_name_comment_extra stk h now :
  exit_status (exec L stk h now) = 0 ->
  let file := output (exec L stk h now) in
  (exists info rest,
     read_header file = Some (info, rest) /\
     info_name info = Some (bytes_of_string "foo.bar") /\
     info_comment info = Some (bytes_of_string "no comment") /\
     info_extra info = Some extra_bytes) /\
  extra_bytes = [120; 49; 4; 0; 97; 98; 99; 100] /\
  firstn 29 (skipn 10 file)
  = le16 8 ++ extra_bytes ++
    literal (bytes_of_string "foo.bar") ++
    literal (bytes_of_string "no comment").
Proof.
  intros E file. subst file.
  destruct (success_header stk h now E) as (rest & O & R).
  split; [|split].
  - exists (info_of (head_of_run stk now) (xfl_of D (-1) 0)), rest.
    repeat split; [exact R | reflexivity ..].
  - reflexivity.
  - rewrite O. reflexivity.
Qed.

(** C10.  With a library that implements the zlib contract, the header of
    the output of a successful run declares OS 3 (Unix) and has FTEXT set:
    byte 9 of the output is 3 and bit 0 of byte 3 is set.  Both come from
    constants of the source, whatever the platform. *)
Theorem header_declares_unix_and_text stk h now :
  exit_status (exec L stk h now) = 0 ->
  let file := output (exec L stk h now) in
  (exists info rest,
     read_header file = Some (info, rest) /\
     info_os info = 3 /\ info_text info = true) /\
  nth_error file 9 = Some 3 /\
  (exists f, nth_error file 3 = Some f /\ Z.testbit f 0 = true).
Proof.
  intros E file. subst file.
  destruct (success_header stk h now E) as (rest & O & R).
  split; [|split].
  - exists (info_of (head_of_run stk now) (xfl_of D (-1) 0)), rest.
    repeat split; [exact R | reflexivity ..].
  - rewrite O. reflexivity.
  - exists 31. rewrite O. split; reflexivity.
Qed.

(** C8, amended.  With a library that implements the zlib contract, the
    outputs of any two successful runs have the same length and agree at
    every byte outside the four bytes of MTIME (4 to 7) and the two bytes
    of the header CRC (39 and 40), whatever the clock, the stack and the
    library's state were in each run. *)
Theorem runs_differ_in_mtime_and_hcrc stk1 h1 now1 stk2 h2 now2 :
  exit_status (exec L stk1 h1 now1) = 0 ->
  exit_status (exec L stk2 h2 now2) = 0 ->
  same_outside (fun i => in_mtime i || in_hcrc i)
    (output (exec L stk1 h1 now1)) (output (exec L stk2 h2 now2)).
Proof.
  intros E1 E2.
  rewrite (success_member stk1 h1 now1 E1).
  rewrite (success_member stk2 h2 now2 E2).
  rewrite !member_layout.
  apply same_outside_layout; reflexivity.
Qed.

(** The exemption of the header CRC is needed whatever the library: a run
    at clock 0 and a run at clock 1 differ at byte 39, because the header
    CRC covers MTIME. *)
Lemma hcrc_follows_mtime stk1 h1 stk2 h2 :
  0 <= xfl_of D (-1) 0 < 256 ->
  exit_status (exec L stk1 h1 0) = 0 ->
  exit_status (exec L stk2 h2 1) = 0 ->
  nth_error (output (exec L stk1 h1 0)) 39
  <> nth_error (output (exec L stk2 h2 1)) 39.
Proof.
  intros X E1 E2.
  rewrite (success_member stk1 h1 0 E1).
  rewrite (success_member stk2 h2 1 E2).
  rewrite !member_layout, !header_body_of_run.
  set (x := xfl_of D (-1) 0) in *.
  change 39%nat with (4 + (4 + (31 + 0)))%nat.
  rewrite !(nth_error_skip [31; 139; 8; 31]) by reflexivity.
  rewrite !(nth_error_skip (le32 _)) by reflexivity.
  rewrite !(nth_error_skip ([x; 3] ++ fields_of_run)) by reflexivity.
  unfold crc16, le16. cbn [app nth_error].
  apply Some_neq, hcrc_byte_0_1, X.
Qed.

End Conforming.

(** ** The statements at the reference implementation *)

Lemma plain_succeeds now :
  now = 0 \/ now = 1 ->
  exit_status (exec plain zero_stack (fresh true) now) = 0.
Proof. intros [-> | ->]; vm_compute; reflexivity. Qed.

Lemma output_decodes_to_text_witness :
  conforms plain (storing 65535) /\
  sound (storing 65535) /\
  exit_status (exec plain zero_stack (fresh true) 0) = 0 /\
  let file := output (exec plain zero_stack (fresh true) 0) in
  (exists info, gunzip file = Some (info, TEXT_chars)) /\
  TEXT = TEXT_chars ++ [0] /\
  skipn (List.length file - 8) file
  = le32 (crc32 TEXT_chars) ++ le32 (Z.of_nat (List.length TEXT_chars)).
Proof.
  split; [apply reference_conforms|]. split; [apply storing_sound|].
  split; [apply plain_succeeds; auto|].
  exact (output_decodes_to_text plain (storing 65535)
           (reference_conforms _) zero_stack (fresh true) 0
           (storing_sound _) (plain_succeeds 0 (or_introl eq_refl))).
Defined.

Lemma header_carries_name_comment_extra_witness :
  conforms plain (storing 65535) /\
  exit_status (exec plain zero_stack (fresh true) 0) = 0 /\
  let file := output (exec plain zero_stack (fresh true) 0) in
  (exists info rest,
     read_header file = Some (info, rest) /\
     info_name info = Some (bytes_of_string "foo.bar") /\
     info_comment info = Some (bytes_of_string "no comment") /\
     info_extra info = Some extra_bytes) /\
  extra_bytes = [120; 49; 4; 0; 97; 98; 99; 100] /\
  firstn 29 (skipn 10 file)
  = le16 8 ++ extra_bytes ++
    literal (bytes_of_string "foo.bar") ++
    literal (bytes_of_string "no comment").
Proof.
  split; [apply reference_conforms|].
  split; [apply plain_succeeds; auto|].
  exact (header_carries_name_comment_extra plain (storing 65535)
           (reference_conforms _) zero_stack (fresh true) 0
           (plain_succeeds 0 (or_introl eq_refl))).
Defined.

Lemma header_declares_unix_and_text_witness :
  conforms plain (storing 65535) /\
  exit_status (exec plain zero_stack (fresh true) 0) = 0 /\
  let file := output (exec plain zero_stack (fresh true) 0) in
  (exists info rest,
     read_header file = Some (info, rest) /\
     info_os info = 3 /\ info_text info = true) /\
  nth_error file 9 = Some 3 /\
  (exists f, nth_error file 3 = Some f /\ Z.testbit f 0 = true).
Proof.
  split; [apply reference_conforms|].
  split; [apply plain_succeeds; auto|].
  exact (header_declares_unix_and_text plain (storing 65535)
           (reference_conforms _) zero_stack (fresh true) 0
           (plain_succeeds 0 (or_introl eq_refl))).
Defined.

Lemma runs_differ_in_mtime_and_hcrc_witness :
  conforms plain (storing 65535) /\
  exit_status (exec plain zero_stack (fresh true) 0) = 0 /\
  exit_status (exec plain zero_stack (fresh true) 1) = 0 /\
  same_outside (fun i => in_mtime i || in_hcrc i)
    (output (exec plain zero_stack (fresh true) 0))
    (output (exec plain zero_stack (fresh true) 1)).
Proof.
  split; [apply reference_conforms|].
  split; [apply plain_succeeds; auto|].
  split; [apply plain_succeeds; auto|].
  exact (runs_differ_in_mtime_and_hcrc plain (storing 65535)
           (reference_conforms _)
           zero_stack (fresh true) 0 zero_stack (fresh true) 1
           (plain_succeeds 0 (or_introl eq_refl))
           (plain_succeeds 1 (or_intror eq_refl))).
Defined.

(** C8 as the specification states it fails: two successful runs, one with
    the clock at 0 and one with the clock at 1, differ at byte 39, the
    first byte of the header CRC, which lies outside MTIME. *)
Lemma hcrc_differs_between_runs :
  let r0 := exec plain zero_stack (fresh true) 0 in
  let r1 := exec plain zero_stack (fresh true) 1 in
  exit_status r0 = 0 /\ exit_status r1 = 0 /\
  nth_error (output r0) 39 = Some 204 /\
  nth_error (output r1) 39 = Some 4 /\
  ~ same_outside in_mtime (output r0) (output r1).
Proof.
  cbv zeta. repeat split; try (vm_compute; reflexivity).
  intros [_ H]. specialize (H 39%nat eq_refl).
  vm_compute in H. discriminate.
Qed.

(** * Further properties of [main] *)

(** ** The order of calls *)


(** ** Statuses the program does not look at *)

(** X2.  The program does not look at the status [deflateSetHeader]
    returns, nor at the one [deflateEnd] returns: with a library that
    returns any other two statuses there and otherwise behaves the same,
    the exit status, the bytes on standard output and the sequence of calls
    are the same. *)
Theorem unchecked_statuses_are_ignored (L : zlib) r_set r_end stk h now :
  exit_status (exec (with_statuses L r_set r_end) stk h now)
  = exit_status (exec L stk h now) /\
  output (exec (with_statuses L r_set r_end) stk h now)
  = output (exec L stk h now) /\
  calls (history (exec (with_statuses L r_set r_end) stk h now))
  = calls (history (exec L stk h now)) /\
  returns fn_deflateSetHeader
    (history (exec (with_statuses L r_set r_end) stk h now))
  = map (fun _ => r_set)
      (returns fn_deflateSetHeader (history (exec L stk h now))).
Proof.
  unfold exec, main, boot.
  cbn [run perform heap clock stdout trace with_heap record app
       with_statuses impl_deflateInit2 impl_deflateSetHeader impl_deflate
       impl_deflateEnd].
  destruct (impl_deflateInit2 L z_stream_zero (-1) 8 (15 + 16) 8 0 h)
    as [[r1 s1] h1].
  cbn [run perform heap clock stdout trace with_heap record app
       with_statuses impl_deflateInit2 impl_deflateSetHeader impl_deflate
       impl_deflateEnd].
  destruct (negb (r1 =? Z_OK)); [cbn; auto|].
  cbn [run perform heap clock stdout trace with_heap record app
       with_statuses impl_deflateInit2 impl_deflateSetHeader impl_deflate
       impl_deflateEnd].
  destruct (impl_deflateSetHeader L s1
              (fill_head (head_garbage stk) now) h1) as [[r2 s2] h2].
  cbn [run perform heap clock stdout trace with_heap record app
       with_statuses impl_deflateInit2 impl_deflateSetHeader impl_deflate
       impl_deflateEnd].
  destruct (impl_deflate L
              (set_next_out (Some 0)
                 (set_avail_out (to_uInt sizeof_out)
                    (set_next_in (Some TEXT)
                       (set_avail_in (to_uInt (strlen TEXT)) s2))))
              (out_array stk) Z_FINISH h2) as [[[r3 s3] out3] h3].
  cbn [run perform heap clock stdout trace with_heap record app
       with_statuses impl_deflateInit2 impl_deflateSetHeader impl_deflate
       impl_deflateEnd].
  destruct (negb (r3 =? Z_STREAM_END)); [cbn; auto|].
  cbn [run perform heap clock stdout trace with_heap record app
       with_statuses impl_deflateInit2 impl_deflateSetHeader impl_deflate
       impl_deflateEnd].
  destruct (impl_deflateEnd L s3 h3) as [[r4 s4] h4].
  cbn. auto.
Qed.

(** A library whose [deflateSetHeader] reports an error: the program goes
    on and exits with status 0. *)
Example failed_setHeader_run :
  let r := exec (with_statuses plain Z_STREAM_ERROR Z_OK) zero_stack
             (fresh true) 0 in
  returns fn_deflateSetHeader (history r) = [Z_STREAM_ERROR] /\
  exit_status r = 0 /\ List.length (output r) = 135%nat.
Proof. vm_compute. auto. Qed.

(** ** More on what a successful run writes *)

Lemma length_le32 z : List.length (le32 z) = 4%nat.
Proof. reflexivity. Qed.

Lemma length_crc16 bs : List.length (crc16 bs) = 2%nat.
Proof. reflexivity. Qed.

Lemma length_header_body stk now xfl :
  List.length (header_body (head_of_run stk now) xfl) = 39%nat.
Proof. reflexivity. Qed.

Lemma length_member (D : deflater) stk now :
  Z.of_nat (List.length (member_of_run D stk now))
  = framing + Z.of_nat (List.length (body_of D (-1) 8 0 TEXT_chars)).
Proof.
  rewrite member_layout, !length_app, length_le32, length_crc16.
  unfold framing. change (List.length (trailer_bytes TEXT_chars)) with 8%nat.
  change (List.length [31; 139; 8; 31]) with 4%nat.
  change (List.length [xfl_of D (-1) 0; 3]) with 2%nat.
  change (List.length fields_of_run) with 29%nat. lia.
Qed.

(** A run that does not exit with status 0 exits with status 1 and has
    written nothing. *)
Lemma failed_run_silent (L : zlib) stk h now :
  exit_status (exec L stk h now) <> 0 ->
  exit_status (exec L stk h now) = 1 /\ output (exec L stk h now) = [].
Proof.
  destruct (exec_path L stk h now); cbn; intros N; auto. now elim N.
Qed.

Lemma mod_64_32 z : (z mod 2 ^ 64) mod 2 ^ 32 = z mod 2 ^ 32.
Proof.
  apply Z.mod_mod_divide. exists (2 ^ 32). reflexivity.
Qed.

Section More.

Variable L : zlib.
Variable D : deflater.
Hypothesis contract : conforms L D.

(** X3.  With a library that implements the zlib contract, two successful
    runs that read the same clock value write the same bytes, whatever the
    stack held where [head] and [out] are declared and whatever state the
    library was in: the five members of [head] the program never assigns
    and the initial contents of [out] do not reach standard output. *)
Theorem same_clock_same_output stk1 h1 stk2 h2 now :
  exit_status (exec L stk1 h1 now) = 0 ->
  exit_status (exec L stk2 h2 now) = 0 ->
  output (exec L stk1 h1 now) = output (exec L stk2 h2 now).
Proof.
  intros E1 E2.
  rewrite (success_member L D contract stk1 h1 now E1).
  rewrite (success_member L D contract stk2 h2 now E2).
  rewrite !member_layout, !header_body_of_run. reflexivity.
Qed.

(** X4.  With a library that implements the zlib contract, bytes 4 to 7 of
    the output of a successful run are the value [time(NULL)] returned,
    reduced modulo 2^32, in little-endian order, and that is the MTIME a
    decoder reads; a [time] that fails with -1 gives 0xFFFFFFFF. *)
Theorem mtime_is_the_clock stk h now :
  exit_status (exec L stk h now) = 0 ->
  let file := output (exec L stk h now) in
  of_le (firstn 4 (skipn 4 file)) = now mod 2 ^ 32 /\
  exists info rest,
    read_header file = Some (info, rest) /\ info_mtime info = now mod 2 ^ 32.
Proof.
  intros E file. subst file.
  destruct (success_header L D contract stk h now E) as (rest & O & R).
  split.
  - rewrite (success_member L D contract stk h now E), member_layout.
    change (firstn 4 (skipn 4 ([31; 139; 8; 31] ++ le32 (to_uLong now) ++ ?x)))
      with (le32 (to_uLong now)).
    rewrite of_le_le32. apply mod_64_32.
  - exists (info_of (head_of_run stk now) (xfl_of D (-1) 0)), rest.
    split; [exact R|]. cbn [info_of info_mtime head_of_run fill_head time].
    apply mod_64_32.
Qed.

(** X5.  With a library that implements the zlib contract, the output of a
    successful run has FLG = 31 (FTEXT, FHCRC, FEXTRA, FNAME and FCOMMENT
    all set), and its bytes 39 and 40 are the header CRC the program asked
    for with [hcrc = 1]: the low 16 bits of the CRC-32 of the 39 bytes
    before them, which is what a decoder reads and checks. *)
Theorem header_crc_covers_header stk h now :
  exit_status (exec L stk h now) = 0 ->
  let file := output (exec L stk h now) in
  nth_error file 3 = Some 31 /\
  firstn 2 (skipn 39 file) = crc16 (firstn 39 file) /\
  exists info rest,
    read_header file = Some (info, rest) /\
    info_hcrc info = Some (Z.land (crc32 (firstn 39 file)) 65535).
Proof.
  intros E file. subst file.
  destruct (success_header L D contract stk h now E) as (rest & O & R).
  assert (F : firstn 39 (output (exec L stk h now))
              = header_body (head_of_run stk now) (xfl_of D (-1) 0)).
  { rewrite O. unfold header_bytes. rewrite <- app_assoc.
    rewrite <- (length_header_body stk now (xfl_of D (-1) 0)).
    apply firstn_app_length. }
  rewrite F. split; [|split].
  - rewrite O. reflexivity.
  - rewrite O. unfold header_bytes. rewrite <- !app_assoc.
    rewrite <- (length_header_body stk now (xfl_of D (-1) 0)) at 1.
    rewrite skipn_app_length. reflexivity.
  - exists (info_of (head_of_run stk now) (xfl_of D (-1) 0)), rest.
    split; [exact R | reflexivity].
Qed.

(** X6.  With a library that implements the zlib contract, when the
    compressed body of the text together with the 49 bytes of header and
    trailer is longer than the 256 bytes of [out], no run succeeds: the
    program exits with status 1 and writes nothing. *)
Theorem no_success_without_room stk h now :
  sizeof_out
  < framing + Z.of_nat (List.length (body_of D (-1) 8 0 TEXT_chars)) ->
  exit_status (exec L stk h now) = 1 /\ output (exec L stk h now) = [].
Proof.
  intros Big. apply failed_run_silent. intros E.
  pose proof (success_member L D contract stk h now E) as M.
  destruct contract as [K _].
  destruct (success_output L K stk h now E)
    as (s1 & h1' & r2 & s2 & h2 & s3 & out3 & h3
        & _ & _ & _ & B & Len & _ & _ & O).
  pose proof (length_member D stk now) as LM.
  rewrite <- M, O, length_firstn, Len in LM.
  unfold sizeof_out in *. lia.
Qed.

End More.

Lemma same_clock_same_output_witness :
  conforms plain (storing 65535) /\
  exit_status (exec plain zero_stack (fresh true) 5) = 0 /\
  exit_status (exec plain junk_stack (fresh true) 5) = 0 /\
  output (exec plain zero_stack (fresh true) 5)
  = output (exec plain junk_stack (fresh true) 5).
Proof.
  assert (E1 : exit_status (exec plain zero_stack (fresh true) 5) = 0)
    by (vm_compute; reflexivity).
  assert (E2 : exit_status (exec plain junk_stack (fresh true) 5) = 0)
    by (vm_compute; reflexivity).
  split; [apply reference_conforms|]. split; [exact E1|]. split; [exact E2|].
  exact (same_clock_same_output plain (storing 65535)
           (reference_conforms _) zero_stack (fresh true)
           junk_stack (fresh true) 5 E1 E2).
Defined.

Lemma mtime_is_the_clock_witness :
  conforms plain (storing 65535) /\
  exit_status (exec plain zero_stack (fresh true) (-1)) = 0 /\
  (-1) mod 2 ^ 32 = 4294967295 /\
  let file := output (exec plain zero_stack (fresh true) (-1)) in
  of_le (firstn 4 (skipn 4 file)) = (-1) mod 2 ^ 32 /\
  exists info rest,
    read_header file = Some (info, rest) /\
    info_mtime info = (-1) mod 2 ^ 32.
Proof.
  assert (E : exit_status (exec plain zero_stack (fresh true) (-1)) = 0)
    by (vm_compute; reflexivity).
  split; [apply reference_conforms|]. split; [exact E|].
  split; [reflexivity|].
  exact (mtime_is_the_clock plain (storing 65535) (reference_conforms _)
           zero_stack (fresh true) (-1) E).
Defined.

Lemma header_crc_covers_header_witness :
  conforms plain (storing 65535) /\
  exit_status (exec plain zero_stack (fresh true) 0) = 0 /\
  let file := output (exec plain zero_stack (fresh true) 0) in
  nth_error file 3 = Some 31 /\
  firstn 2 (skipn 39 file) = crc16 (firstn 39 file) /\
  exists info rest,
    read_header file = Some (info, rest) /\
    info_hcrc info = Some (Z.land (crc32 (firstn 39 file)) 65535).
Proof.
  split; [apply reference_conforms|].
  split; [apply plain_succeeds; auto|].
  exact (header_crc_covers_header plain (storing 65535)
           (reference_conforms _) zero_stack (fresh true) 0
           (plain_succeeds 0 (or_introl eq_refl))).
Defined.

Lemma no_success_without_room_witness :
  conforms wasteful (storing 1) /\
  sizeof_out
  < framing
    + Z.of_nat (List.length (body_of (storing 1) (-1) 8 0 TEXT_chars)) /\
  exit_status (exec wasteful zero_stack (fresh true) 0) = 1 /\
  output (exec wasteful zero_stack (fresh true) 0) = [].
Proof.
  assert (Big : sizeof_out
                < framing
                  + Z.of_nat
                      (List.length
                         (body_of (storing 1) (-1) 8 0 TEXT_chars)))
    by (vm_compute; reflexivity).
  split; [apply reference_conforms|]. split; [exact Big|].
  exact (no_success_without_room wasteful (storing 1)
           (reference_conforms _) zero_stack (fresh true) 0 Big).
Defined.

(** X7.  With a library that implements the zlib contract, the output of a
    successful run is exactly 49 bytes longer than the compressed body of
    the text (41 bytes of header: the ten fixed ones, XLEN and the 8-byte
    extra field, [foo.bar] and [no comment] with their NULs, the header
    CRC; and 8 bytes of trailer), and never longer than [out]. *)
Theorem output_length (L : zlib) (D : deflater) stk h now :
  conforms L D ->
  exit_status (exec L stk h now) = 0 ->
  Z.of_nat (List.length (output (exec L stk h now)))
  = framing + Z.of_nat (List.length (body_of D (-1) 8 0 TEXT_chars)) /\
  Z.of_nat (List.length (output (exec L stk h now))) <= sizeof_out.
Proof.
  intros C E. split.
  - rewrite (success_member L D C stk h now E). apply length_member.
  - destruct C as [K _].
    destruct (success_output L K stk h now E)
      as (s1 & h1 & r2 & s2 & h2 & s3 & out3 & h3
          & _ & _ & _ & B & Len & _ & _ & O).
    rewrite O, length_firstn, Len. unfold sizeof_out. lia.
Qed.

Lemma output_length_witness :
  conforms plain (storing 65535) /\
  exit_status (exec plain zero_stack (fresh true) 0) = 0 /\
  Z.of_nat (List.length (output (exec plain zero_stack (fresh true) 0)))
  = framing
    + Z.of_nat (List.length (body_of (storing 65535) (-1) 8 0 TEXT_chars)) /\
  Z.of_nat (List.length (output (exec plain zero_stack (fresh true) 0)))
  <= sizeof_out.
Proof.
  split; [apply reference_conforms|].
  split; [apply plain_succeeds; auto|].
  exact (output_length plain (storing 65535) zero_stack (fresh true) 0
           (reference_conforms _) (plain_succeeds 0 (or_introl eq_refl))).
Defined.
